(** * Meeting transcriber: a shallow embedding of the streaming and batch
      clients of [meeting-recorder] and the properties of their workspace,
      mention detection, reconnect backoff and forwarding/receiving loops.

    Source files embedded here:
    - [meeting-transcriber.py]        (class MeetingTranscriber)
    - [meeting-transcriber-batch.py]  (class MeetingTranscriberBatch)

    Conventions of the embedding.
    - A Python [str] is a Rocq [string]; every character stands for one code
      point below 256.  [Py.isspace] and [Py.lower] follow [str.isspace] and
      [str.lower] on that range.
    - A Python exception is a value of [exn]; a method is a function in the
      monad [M S], which threads the state and keeps the state reached when
      an exception is raised (a Python exception does not undo the
      assignments and writes made before it).
    - What the environment decides (the wall clock, whether a connection
      attempt succeeds, what [recv] returns, whether a send succeeds) is an
      explicit input of the function that observes it. *)

From Stdlib Require Import ZArith Ascii String Sorted.
From stdpp Require Import base gmap strings list fin_maps pretty.

Local Open Scope Z_scope.

(* ===================================================================== *)
(** ** Python strings *)
(* ===================================================================== *)

Module Py.

(** [str.isspace] on one code point below 256: TAB..CR, FS..US, SPACE,
    NEL (0x85) and NBSP (0xA0). *)
Definition isspace (a : ascii) : bool :=
  let n := N_of_ascii a in
  ((9 <=? n) && (n <=? 13) || (28 <=? n) && (n <=? 32)
   || (n =? 133) || (n =? 160))%N.

(** [str.lower] on one code point below 256: A..Z and the Latin-1 capitals
    0xC0..0xDE (without the multiplication sign 0xD7) move up by 32. *)
Definition lower_char (a : ascii) : ascii :=
  let n := N_of_ascii a in
  if ((65 <=? n) && (n <=? 90)
      || (192 <=? n) && (n <=? 222) && negb (n =? 215))%N
  then ascii_of_N (n + 32) else a.

Fixpoint lower (s : string) : string :=
  match s with
  | EmptyString => EmptyString
  | String a s' => String (lower_char a) (lower s')
  end.

Fixpoint lstrip (s : string) : string :=
  match s with
  | EmptyString => EmptyString
  | String a s' => if isspace a then lstrip s' else s
  end.

(** [rstrip] keeps a character when it is not white space or when
    something that is kept follows it. *)
Fixpoint rstrip (s : string) : string :=
  match s with
  | EmptyString => EmptyString
  | String a s' =>
      match rstrip s' with
      | EmptyString => if isspace a then EmptyString else String a EmptyString
      | r => String a r
      end
  end.

(** [s.strip()] *)
Definition strip (s : string) : string := rstrip (lstrip s).

(** [p in s] for two strings: [p] occurs in [s] as a substring. *)
Fixpoint contains (p s : string) : bool :=
  String.prefix p s ||
  match s with
  | EmptyString => false
  | String _ s' => contains p s'
  end.

(** [any(p in s for p in ps)] *)
Definition any_in (ps : list string) (s : string) : bool :=
  existsb (fun p => contains p s) ps.

(** Truth value of a [str]: non-empty. *)
Definition truthy (s : string) : bool :=
  match s with EmptyString => false | _ => true end.

(** All characters of [s] are white space (so [s.strip()] is empty). *)
Fixpoint blank (s : string) : bool :=
  match s with
  | EmptyString => true
  | String a s' => isspace a && blank s'
  end.

End Py.

(* ===================================================================== *)
(** ** JSON values, as [json.load] returns them *)
(* ===================================================================== *)

(** A [dict] keeps insertion order; it is an association list with unique
    keys.  Assigning to a key that is present replaces the value in place,
    assigning to a new key appends. *)
#[warnings="-register-all"]
Inductive json : Type :=
| JNull
| JBool (b : bool)
| JNum (n : Z)
| JStr (s : string)
| JList (l : list json)
| JDict (d : list (string * json)).

Fixpoint dict_get (k : string) (d : list (string * json)) : option json :=
  match d with
  | [] => None
  | (k', v) :: d' => if String.eqb k k' then Some v else dict_get k d'
  end.

Fixpoint dict_set (k : string) (v : json) (d : list (string * json))
  : list (string * json) :=
  match d with
  | [] => [(k, v)]
  | (k', v') :: d' =>
      if String.eqb k k' then (k, v) :: d' else (k', v') :: dict_set k v d'
  end.

(* ===================================================================== *)
(** ** Exceptions and the state-and-exception monad *)
(* ===================================================================== *)

Inductive exn : Type :=
| OSError (path : string)         (* a file operation failed *)
| JSONDecodeError                 (* json.load / json.loads *)
| AttributeError                  (* method of a value of the wrong type *)
| TypeError                       (* item assignment on a non-dict *)
| ConnectionClosed                (* websockets.exceptions.ConnectionClosed *)
| ConnectionRefused               (* websockets.connect failed *)
| TransportError.                 (* any other failure of send / recv *)

(** [str(e)] as it appears in a log line; only the class is kept. *)
Definition exn_str (e : exn) : string :=
  match e with
  | OSError p => "OSError: " +:+ p
  | JSONDecodeError => "JSONDecodeError"
  | AttributeError => "AttributeError"
  | TypeError => "TypeError"
  | ConnectionClosed => "ConnectionClosed"
  | ConnectionRefused => "ConnectionRefused"
  | TransportError => "TransportError"
  end.

Inductive res (A : Type) : Type :=
| Val (a : A)
| Exn (e : exn).
Arguments Val {A} a.
Arguments Exn {A} e.

Definition M (S A : Type) : Type := S -> res A * S.

Definition ret {S A} (a : A) : M S A := fun s => (Val a, s).
Definition raise {S A} (e : exn) : M S A := fun s => (Exn e, s).
Definition bind {S A B} (m : M S A) (f : A -> M S B) : M S B :=
  fun s => match m s with
           | (Val a, s') => f a s'
           | (Exn e, s') => (Exn e, s')
           end.
(** [try: m except Exception as e: h e] *)
Definition try_except {S A} (m : M S A) (h : exn -> M S A) : M S A :=
  fun s => match m s with
           | (Val a, s') => (Val a, s')
           | (Exn e, s') => h e s'
           end.
Definition get {S} : M S S := fun s => (Val s, s).
Definition gets {S A} (f : S -> A) : M S A := fun s => (Val (f s), s).
Definition modify {S} (f : S -> S) : M S unit := fun s => (Val tt, f s).
(** Run a computation on a component of the state. *)
Definition zoom {S T A} (proj : S -> T) (upd : T -> S -> S) (m : M T A)
  : M S A :=
  fun s => let '(r, t) := m (proj s) in (r, upd t s).

Declare Scope monad_scope.
Delimit Scope monad_scope with monad.
Notation "x <- m ;; k" := (bind m (fun x => k))
  (at level 100, m at next level, right associativity) : monad_scope.
Notation "m ;; k" := (bind m (fun _ => k))
  (at level 100, right associativity) : monad_scope.
Local Open Scope monad_scope.

(* ===================================================================== *)
(** ** The file system *)
(* ===================================================================== *)

(** The content of a regular file: the text [json.dump(doc, f, indent=2)]
    when [doc] is [Some], followed by the text [raw].  Text that was not
    produced by [json.dump] is taken not to parse as JSON. *)
Record fdata : Type := mkFile { doc : option json; raw : string }.

(** [unwritable] lists the paths at which creating, writing, appending,
    linking or unlinking fails with [OSError], whatever the reason (no
    permission, no space left, a directory where a file should go).
    [torn] says how a write fails there: at a path that is not in [torn]
    the file cannot even be opened and is left as it is; at a path in
    [torn] the failure comes after the file has been opened, so that
    [open(p, "w")] has emptied the file by then.  An append that fails is
    taken to add nothing.

    [symlinks] maps a link to its target.  Contents are kept under the
    name they were written under, and every file has one name: the model
    does not follow a link inside a path.  It describes the runs in which
    the paths of the meeting do not lead through the [current] link,
    which is the only link that the program removes; the properties of
    the setup are stated for such runs. *)
Record filesystem : Type := mkFs {
  files : gmap string fdata;
  symlinks : gmap string string;
  dirs : gset string;
  unwritable : gset string;
  torn : gset string
}.

Definition set_files (f : gmap string fdata) (d : filesystem) : filesystem :=
  mkFs f (symlinks d) (dirs d) (unwritable d) (torn d).
Definition set_symlinks (l : gmap string string) (d : filesystem)
  : filesystem :=
  mkFs (files d) l (dirs d) (unwritable d) (torn d).
Definition set_dirs (x : gset string) (d : filesystem) : filesystem :=
  mkFs (files d) (symlinks d) x (unwritable d) (torn d).

(** [a / b] on [pathlib.Path], for a directory [a] written as [pathlib]
    writes it (no final slash, not the root) and a single name [b]. *)
Definition path_join (a b : string) : string := a +:+ "/" +:+ b.

(** [s.split(c)] for one character [c]: never an empty list. *)
Fixpoint split (c : ascii) (s : string) : list string :=
  match s with
  | EmptyString => [EmptyString]
  | String a s' =>
      if Ascii.eqb a c then EmptyString :: split c s'
      else match split c s' with
           | h :: t => String a h :: t
           | [] => [String a EmptyString]
           end
  end.

(** The components of a path text as [pathlib] keeps them: empty ones and
    "." are dropped, ".." stays. *)
Definition components (s : string) : list string :=
  List.filter (fun c => negb (String.eqb c "") && negb (String.eqb c "."))
              (split "/" s).

(** The root of an absolute path text: "/" or, for exactly two slashes,
    "//". *)
Definition root_of (b : string) : option string :=
  if String.prefix "///" b then Some "/"
  else if String.prefix "//" b then Some "//"
  else if String.prefix "/" b then Some "/"
  else None.

(** [Path(a) / b] as a string, for any text [b]: an absolute [b] takes
    the place of [a], and [b] is taken apart into its components. *)
Definition path_div (a b : string) : string :=
  match root_of b with
  | Some root =>
      match components b with
      | [] => root
      | c :: cs => fold_left path_join cs (root +:+ c)
      end
  | None => fold_left path_join (components b) a
  end.

(** A single name: not empty, not "." or "..", and without a slash or a
    null character (which no file name can hold). *)
Definition plain_name (s : string) : bool :=
  negb (String.eqb s "") && negb (String.eqb s ".")
  && negb (String.eqb s "..") && negb (Py.contains "/" s)
  && negb (Py.contains (String zero EmptyString) s).

Module Fs.

Definition guard_writable (p : string) : M filesystem unit :=
  fun d => if bool_decide (p ∈ unwritable d)
           then (Exn (OSError p), d) else (Val tt, d).

(** The ancestors of the path [p] below the root, the outermost first. *)
Fixpoint parents_from (pre s : string) : list string :=
  match s with
  | EmptyString => []
  | String a s' =>
      (if Ascii.eqb a "/" && Py.truthy pre then [pre] else [])
      ++ parents_from (pre +:+ String a EmptyString) s'
  end.

Definition parents (p : string) : list string := parents_from "" p.

(** Whether [p] leads to a directory after at most [n] links. *)
Fixpoint leads_to_dir (n : nat) (d : filesystem) (p : string) : bool :=
  bool_decide (p ∈ dirs d)
  || match n, symlinks d !! p with
     | S n', Some target => leads_to_dir n' d target
     | _, _ => false
     end.

(** [p.is_dir()]: a directory, or a link that leads to one; the system
    follows 40 links at most. *)
Definition is_dir (d : filesystem) (p : string) : bool :=
  leads_to_dir 40 d p.

(** Whether something is at [p]. *)
Definition occupied (d : filesystem) (p : string) : bool :=
  bool_decide (is_Some (files d !! p))
  || bool_decide (is_Some (symlinks d !! p))
  || bool_decide (p ∈ dirs d).

(** [os.mkdir] on each path of [l] in turn that does not lead to a
    directory yet; the first that cannot be created ends it, and what was
    created before stays. *)
Fixpoint make_dirs (l : list string) (d : filesystem)
  : res unit * filesystem :=
  match l with
  | [] => (Val tt, d)
  | a :: rest =>
      if is_dir d a then make_dirs rest d
      else if bool_decide (a ∈ unwritable d) then (Exn (OSError a), d)
      else make_dirs rest (set_dirs ({[a]} ∪ dirs d) d)
  end.

(** [p.mkdir(parents=True, exist_ok=True)]: nothing is done where [p]
    leads to a directory already; it fails at once where something else
    is in the way, at [p] or at one of its ancestors; otherwise the
    ancestors that are missing are created, the outermost first, and then
    [p]. *)
Definition mkdir (p : string) : M filesystem unit :=
  fun d =>
    if is_dir d p then (Val tt, d)
    else if occupied d p
            || existsb (fun a => occupied d a && negb (is_dir d a)) (parents p)
    then (Exn (OSError p), d)
    else make_dirs (parents p ++ [p]) d.

(** [p.exists()] *)
Definition path_exists (p : string) : M filesystem bool :=
  gets (fun d => bool_decide (is_Some (files d !! p))
                 || bool_decide (p ∈ dirs d)).

(** [open(p, "w")], the writing of the content [f] and the closing, as
    one step: the content is there afterwards, or the step fails and the
    file is as it was or, at a path in [torn], empty. *)
Definition write_file (p : string) (f : fdata) : M filesystem unit :=
  fun d =>
    if bool_decide (p ∈ unwritable d) then
      (Exn (OSError p),
       if bool_decide (p ∈ torn d)
       then set_files (<[p := mkFile None ""]> (files d)) d
       else d)
    else (Val tt, set_files (<[p := f]> (files d)) d).

(** [p.write_text(s)] *)
Definition write_text (p s : string) : M filesystem unit :=
  write_file p (mkFile None s).

(** [with open(p, "a") as f: f.write(s)] *)
Definition append (p s : string) : M filesystem unit :=
  guard_writable p ;;
  modify (fun d =>
    let old := default (mkFile None "") (files d !! p) in
    set_files (<[p := mkFile (doc old) (raw old +:+ s)]> (files d)) d).

(** [with open(p, "w") as f: json.dump(v, f, indent=2)] *)
Definition dump (p : string) (v : json) : M filesystem unit :=
  write_file p (mkFile (Some v) "").

(** JSON white space, which [json.load] accepts after the document. *)
Definition json_ws (a : ascii) : bool :=
  let n := N_of_ascii a in ((n =? 32) || (n =? 9) || (n =? 10) || (n =? 13))%N.

Fixpoint all_json_ws (s : string) : bool :=
  match s with
  | EmptyString => true
  | String a s' => json_ws a && all_json_ws s'
  end.

(** [with open(p) as f: json.load(f)] *)
Definition load (p : string) : M filesystem json :=
  fun d => match files d !! p with
           | None => (Exn (OSError p), d)
           | Some (mkFile (Some v) r) =>
               if all_json_ws r then (Val v, d) else (Exn JSONDecodeError, d)
           | Some (mkFile None _) => (Exn JSONDecodeError, d)
           end.

(** [p.is_symlink()] *)
Definition is_symlink (p : string) : M filesystem bool :=
  gets (fun d => bool_decide (is_Some (symlinks d !! p))).

(** [p.unlink()] *)
Definition unlink (p : string) : M filesystem unit :=
  guard_writable p ;;
  modify (fun d => set_symlinks (delete p (symlinks d))
                     (set_files (delete p (files d)) d)).

(** [p.symlink_to(target)]: fails when something is at [p] already. *)
Definition symlink_to (p target : string) : M filesystem unit :=
  guard_writable p ;;
  fun d => if bool_decide (is_Some (files d !! p))
              || bool_decide (is_Some (symlinks d !! p))
              || bool_decide (p ∈ dirs d)
           then (Exn (OSError p), d)
           else (Val tt, set_symlinks (<[p := target]> (symlinks d)) d).

End Fs.

(* ===================================================================== *)
(** ** The process environment *)
(* ===================================================================== *)

(** What goes out on a connection.  The JSON text and the base64 encoding
    of the audio are injective and are left out: a frame is the event
    itself. *)
Inductive frame : Type :=
| SessionUpdate                       (* {"type": "session.update", ...} *)
| AudioAppend (chunk : list Byte.byte). (* "input_audio_buffer.append" *)

(** [MEETINGS_DIR] and [HOME] are the texts of [Path(MEETINGS_DIR)] and
    [Path.home()], as [pathlib] writes a directory.  [wire] holds the
    frames sent so far, oldest first, each with the connection it went out
    on; [opened] counts the connections opened. *)
Record world : Type := mkWorld {
  MEETINGS_DIR : string;
  HOME : string;
  MENTION_KEYWORDS : list string;
  fs : filesystem;
  stderr : list string;
  wire : list (nat * frame);
  opened : nat
}.

Definition set_fs (d : filesystem) (w : world) : world :=
  mkWorld (MEETINGS_DIR w) (HOME w) (MENTION_KEYWORDS w) d (stderr w)
          (wire w) (opened w).
Definition set_stderr (l : list string) (w : world) : world :=
  mkWorld (MEETINGS_DIR w) (HOME w) (MENTION_KEYWORDS w) (fs w) l
          (wire w) (opened w).
Definition set_wire (l : list (nat * frame)) (w : world) : world :=
  mkWorld (MEETINGS_DIR w) (HOME w) (MENTION_KEYWORDS w) (fs w) (stderr w)
          l (opened w).
Definition set_opened (n : nat) (w : world) : world :=
  mkWorld (MEETINGS_DIR w) (HOME w) (MENTION_KEYWORDS w) (fs w) (stderr w)
          (wire w) n.

(** A file operation, run on the file system of the world. *)
Definition io {A} (m : M filesystem A) : M world A := zoom fs set_fs m.

(** [print(s, file=sys.stderr)] *)
Definition eprint (s : string) : M world unit :=
  modify (fun w => set_stderr (stderr w ++ [s]) w).

(** The attributes that both clients compute in [__init__]. *)
Record meeting : Type := mkMeeting {
  meeting_id : string;
  meeting_url : string;
  meeting_dir : string;
  transcript_path : string;
  metadata_path : string;
  mentions_path : string
}.

Definition init_meeting (meetings_dir id url : string) : meeting :=
  let dir := path_div meetings_dir id in
  mkMeeting id url dir (path_join dir "transcript.txt")
            (path_join dir "metadata.json") (path_join dir "mentions.txt").

(* ===================================================================== *)
(** ** Code shared by the two clients *)
(* ===================================================================== *)

(** The line feed that ends every line written. *)
Definition nl : string := String (ascii_of_N 10) EmptyString.

(** The item of an object returned by [json.load]; [obj.get(k, dflt)]
    raises [AttributeError] when [obj] is not a dict. *)
Definition py_get {S} (obj : json) (k : string) (dflt : json) : M S json :=
  match obj with
  | JDict d => ret (default dflt (dict_get k d))
  | _ => raise AttributeError
  end.

(** [obj[k] = v]; a [TypeError] when [obj] is not a dict. *)
Definition py_setitem {S} (obj : json) (k : string) (v : json) : M S json :=
  match obj with
  | JDict d => ret (JDict (dict_set k v d))
  | _ => raise TypeError
  end.

(** [v.strip()]; an [AttributeError] when [v] is not a string. *)
Definition py_strip {S} (v : json) : M S string :=
  match v with
  | JStr s => ret (Py.strip s)
  | _ => raise AttributeError
  end.

(** [v == s] for a string literal [s]. *)
Definition is_str (v : json) (s : string) : bool :=
  match v with
  | JStr s' => String.eqb s' s
  | _ => false
  end.

Definition question_phrases : list string :=
  [ "what do you think"; "can you"; "could you"; "would you";
    "do you know"; "what about"; "hey claude"; "hey assistant" ].

Definition transcript_line (timestamp transcript : string) : string :=
  "[" +:+ timestamp +:+ "] " +:+ transcript +:+ nl.

Definition question_line (timestamp transcript : string) : string :=
  "[" +:+ timestamp +:+ "] QUESTION: " +:+ transcript +:+ nl.

Definition mention_line (timestamp transcript : string) : string :=
  "[" +:+ timestamp +:+ "] MENTION: " +:+ transcript +:+ nl.

(** [is_question] of [_check_mentions]. *)
Definition is_question (transcript : string) : bool :=
  Py.contains "?" transcript
  || Py.any_in question_phrases (Py.lower transcript).

(** The [for keyword in MENTION_KEYWORDS] loop of [_check_mentions]: the
    first keyword that occurs writes one line and leaves the loop. *)
Fixpoint check_keywords (m : meeting) (timestamp transcript : string)
    (keywords : list string) : M world unit :=
  match keywords with
  | [] => ret tt
  | keyword :: rest =>
      if Py.contains (Py.lower keyword) (Py.lower transcript) then
        let line := if is_question transcript
                    then question_line timestamp transcript
                    else mention_line timestamp transcript in
        io (Fs.append (mentions_path m) line) ;;
        eprint (">>> MENTION DETECTED: " +:+ transcript)
      else check_keywords m timestamp transcript rest
  end.

Definition _check_mentions (m : meeting) (timestamp transcript : string)
  : M world unit :=
  keywords <- gets MENTION_KEYWORDS ;;
  check_keywords m timestamp transcript keywords.

(** [timestamp] is [datetime.now().strftime("%H:%M:%S")] at the call. *)
Definition _write_transcript (m : meeting) (timestamp transcript : string)
  : M world unit :=
  io (Fs.append (transcript_path m) (transcript_line timestamp transcript)) ;;
  eprint ("[" +:+ timestamp +:+ "] " +:+ transcript) ;;
  _check_mentions m timestamp transcript.

Definition default_participant : json := JStr "Claude Assistant".

Definition _get_participant_name : M world json :=
  home <- gets HOME ;;
  let config_path := path_join home ".meeting-recorder.json" in
  present <- io (Fs.path_exists config_path) ;;
  if present then
    try_except
      (config <- io (Fs.load config_path) ;;
       py_get config "participant_name" default_participant)
      (fun _ => ret default_participant)
  else ret default_participant.

(** The metadata record written by [setup_meeting_directory]; [now] is
    [datetime.now(timezone.utc).isoformat().replace("+00:00", "Z")]. *)
Definition new_metadata (m : meeting) (now : string) (name : json) : json :=
  JDict [ ("meeting_id", JStr (meeting_id m));
          ("url", JStr (meeting_url m));
          ("started_at", JStr now);
          ("ended_at", JNull);
          ("participant_name", name);
          ("status", JStr "active") ].

(** The tail of [setup_meeting_directory], the same in both clients:
    metadata, the [current] link and the log line. *)
Definition setup_metadata_and_link (m : meeting) (now : string)
  : M world unit :=
  name <- _get_participant_name ;;
  io (Fs.dump (metadata_path m) (new_metadata m now name)) ;;
  meetings <- gets MEETINGS_DIR ;;
  let current_link := path_join meetings "current" in
  linked <- io (Fs.is_symlink current_link) ;;
  (if linked then io (Fs.unlink current_link) else ret tt) ;;
  io (Fs.symlink_to current_link (meeting_dir m)) ;;
  eprint ("Meeting directory: " +:+ meeting_dir m).

(** [now] is the UTC time of the call, in ISO format with a final Z. *)
Definition update_metadata_ended (m : meeting) (now : string)
  : M world unit :=
  present <- io (Fs.path_exists (metadata_path m)) ;;
  if present then
    try_except
      (metadata <- io (Fs.load (metadata_path m)) ;;
       metadata <- py_setitem metadata "ended_at" (JStr now) ;;
       metadata <- py_setitem metadata "status" (JStr "ended") ;;
       io (Fs.dump (metadata_path m) metadata))
      (fun e => eprint ("Error updating metadata: " +:+ exn_str e))
  else ret tt.

(* ===================================================================== *)
(** ** The batch client: [MeetingTranscriberBatch] *)
(* ===================================================================== *)

Module MeetingTranscriberBatch.

(** [if not p.exists(): p.write_text("")] *)
Definition init_file (p : string) : M world unit :=
  present <- io (Fs.path_exists p) ;;
  if negb present then io (Fs.write_text p "") else ret tt.

Definition setup_meeting_directory (m : meeting) (now : string)
  : M world unit :=
  io (Fs.mkdir (meeting_dir m)) ;;
  init_file (transcript_path m) ;;
  init_file (mentions_path m) ;;
  setup_metadata_and_link m now.

End MeetingTranscriberBatch.

(* ===================================================================== *)
(** ** The streaming client: [MeetingTranscriber] *)
(* ===================================================================== *)

(** [ws] is the connection object, named by its number, or [None]. *)
Record transcriber : Type := mkSelf {
  ident : meeting;
  ws : option nat;
  running : bool;
  reconnect_delay : Z;
  max_reconnect_delay : Z
}.

(** [waited] lists the delays that [_reconnect] has slept, oldest first. *)
Record state : Type := mkState {
  self : transcriber;
  env : world;
  waited : list Z
}.

Definition set_self (t : transcriber) (st : state) : state :=
  mkState t (env st) (waited st).
Definition set_env (w : world) (st : state) : state :=
  mkState (self st) w (waited st).
Definition set_waited (l : list Z) (st : state) : state :=
  mkState (self st) (env st) l.

Definition set_ws (c : option nat) (t : transcriber) : transcriber :=
  mkSelf (ident t) c (running t) (reconnect_delay t) (max_reconnect_delay t).
Definition set_running (b : bool) (t : transcriber) : transcriber :=
  mkSelf (ident t) (ws t) b (reconnect_delay t) (max_reconnect_delay t).
Definition set_reconnect_delay (d : Z) (t : transcriber) : transcriber :=
  mkSelf (ident t) (ws t) (running t) d (max_reconnect_delay t).

(** What the environment answers to a connection attempt, a send, a
    receive and a read of standard input. *)
Inductive connect_outcome : Type :=
| ConnOk                 (* connected and the session update was sent *)
| ConnRefused            (* websockets.connect raised *)
| ConnHandshakeFailed.   (* connected, sending the session update raised *)

Inductive send_result : Type :=
| SendOk
| SendClosed (c : connect_outcome) (* ConnectionClosed; [c] answers the
                                      connection attempt of [_reconnect] *)
| SendFailed.                      (* any other exception *)

(** [RecvMessage m hms]: a message arrived; [m] is [json.loads] of it
    ([None] when it does not parse) and [hms] the local time then. *)
Inductive recv_result : Type :=
| RecvMessage (m : option json) (hms : string)
| RecvClosed (c : connect_outcome)
| RecvFailed.

Inductive read_result : Type :=
| ReadBytes (chunk : list Byte.byte)
| ReadFailed.

(** One turn of a loop, as the environment drives it.  A signal (SIGINT or
    SIGTERM) arrives between two turns, or during the turn's first
    suspension when [sig] is set. *)
Inductive recv_event : Type :=
| RecvSignal
| RecvTurn (sig : bool) (r : recv_result).

Inductive send_event : Type :=
| SendSignal
| SendTurn (sig : bool) (rd : read_result) (sd : send_result).

Inductive loop_ctl : Type := Continue | Break.

(** Whether a loop has been left ([Done]) or is waiting for the next
    event ([Pending]). *)
Inductive task_status : Type := Pending | Done.

(** The last lines of [run], the same in both clients: the [current] link
    is removed if it is a link, a failure to remove it is passed over, and
    the end is logged. *)
Definition remove_current_link : M world unit :=
  meetings <- gets MEETINGS_DIR ;;
  let current_link := path_join meetings "current" in
  linked <- io (Fs.is_symlink current_link) ;;
  (if linked
   then try_except (io (Fs.unlink current_link)) (fun _ => ret tt)
   else ret tt) ;;
  eprint "Transcriber stopped".

Module MeetingTranscriber.

Definition world_op {A} (m : M world A) : M state A := zoom env set_env m.
Definition self_op (f : transcriber -> transcriber) : M state unit :=
  modify (fun st => set_self (f (self st)) st).
Definition attr {A} (f : transcriber -> A) : M state A :=
  gets (fun st => f (self st)).

Definition __init__ (w : world) (id url : string) : transcriber :=
  mkSelf (init_meeting (MEETINGS_DIR w) id url) None true 1 30.

Definition setup_meeting_directory (m : meeting) (now : string)
  : M world unit :=
  io (Fs.mkdir (meeting_dir m)) ;;
  io (Fs.write_text (transcript_path m) "") ;;
  io (Fs.write_text (mentions_path m) "") ;;
  setup_metadata_and_link m now.

(** [websockets.connect(url)]: a new connection object. *)
Definition open_connection : M state nat :=
  n <- gets (fun st => opened (env st)) ;;
  world_op (modify (set_opened (S n))) ;;
  ret n.

(** [await c.send(json.dumps(f))] when the send goes through. *)
Definition emit (c : nat) (f : frame) : M state unit :=
  world_op (modify (fun w => set_wire (wire w ++ [(c, f)]) w)).

Definition connect (out : connect_outcome) : M state unit :=
  world_op (eprint "Connecting to Speaches") ;;
  match out with
  | ConnRefused => raise ConnectionRefused
  | ConnHandshakeFailed =>
      c <- open_connection ;;
      self_op (set_ws (Some c)) ;;
      raise ConnectionClosed
  | ConnOk =>
      c <- open_connection ;;
      self_op (set_ws (Some c)) ;;
      emit c SessionUpdate ;;
      world_op (eprint "Session configured for transcription") ;;
      self_op (set_reconnect_delay 1)
  end.

(** [await asyncio.sleep(d)] in [_reconnect]. *)
Definition backoff_sleep (d : Z) : M state unit :=
  modify (fun st => set_waited (waited st ++ [d]) st).

Definition _reconnect (out : connect_outcome) : M state unit :=
  alive <- attr running ;;
  if negb alive then ret tt
  else
    d <- attr reconnect_delay ;;
    world_op (eprint ("Reconnecting in " +:+ pretty d +:+ "s...")) ;;
    backoff_sleep d ;;
    self_op (fun t => set_reconnect_delay
               (Z.min (reconnect_delay t * 2) (max_reconnect_delay t)) t) ;;
    try_except (connect out)
      (fun e => world_op (eprint ("Reconnect failed: " +:+ exn_str e))).

(** The handler installed by [run] for SIGINT and SIGTERM. *)
Definition signal_handler : M state unit :=
  world_op (eprint (nl +:+ "Shutting down...")) ;;
  self_op (set_running false).

Definition deliver (sig : bool) : M state unit :=
  if sig then signal_handler else ret tt.

(** [await self.ws.send(json.dumps(f))] *)
Definition ws_send (c : nat) (f : frame) (sd : send_result) : M state unit :=
  match sd with
  | SendOk => emit c f
  | SendClosed _ => raise ConnectionClosed
  | SendFailed => raise TransportError
  end.

(** The connection attempt that follows a closed send or receive. *)
Definition after_send (sd : send_result) : connect_outcome :=
  match sd with SendClosed c => c | _ => ConnRefused end.
Definition after_recv (r : recv_result) : connect_outcome :=
  match r with RecvClosed c => c | _ => ConnRefused end.

(** The body of the [while] loop of [send_audio]. *)
Definition send_audio_body (sig : bool) (rd : read_result)
    (sd : send_result) : M state loop_ctl :=
  try_except
    (deliver sig ;;
     chunk <- match rd with
              | ReadBytes b => ret b
              | ReadFailed => raise (OSError "<stdin>")
              end ;;
     match chunk with
     | [] => world_op (eprint "Audio stream ended") ;; ret Break
     | _ =>
         conn <- attr ws ;;
         match conn with
         | None => ret Continue
         | Some c =>
             try_except (ws_send c (AudioAppend chunk) sd)
               (fun e =>
                  match e with
                  | ConnectionClosed =>
                      world_op (eprint "WebSocket closed while sending") ;;
                      _reconnect (after_send sd)
                  | _ => raise e
                  end) ;;
             ret Continue
         end
     end)
    (fun e =>
       world_op (eprint ("Error sending audio: " +:+ exn_str e)) ;;
       ret Break).

Definition completed : string :=
  "conversation.item.input_audio_transcription.completed".

(** What [receive_transcriptions] does with a decoded event. *)
Definition handle_event (event : json) (hms : string) : M state unit :=
  event_type <- py_get event "type" (JStr "") ;;
  if is_str event_type completed then
    t <- py_get event "transcript" (JStr "") ;;
    transcript <- py_strip t ;;
    if Py.truthy transcript then
      m <- attr ident ;;
      world_op (_write_transcript m hms transcript)
    else ret tt
  else if is_str event_type "input_audio_buffer.speech_started" then ret tt
  else if is_str event_type "input_audio_buffer.speech_stopped" then ret tt
  else if is_str event_type "error" then
    _ <- py_get event "error" (JDict []) ;;
    world_op (eprint "Speaches error")
  else ret tt.

(** The [try] block of the loop of [receive_transcriptions]. *)
Definition receive_try (sig : bool) (r : recv_result) : M state unit :=
  conn <- attr ws ;;
  match conn with
  | None => deliver sig
  | Some _ =>
      deliver sig ;;
      match r with
      | RecvMessage None _ => raise JSONDecodeError
      | RecvMessage (Some event) hms => handle_event event hms
      | RecvClosed _ => raise ConnectionClosed
      | RecvFailed => raise TransportError
      end
  end.

(** Its two [except] clauses. *)
Definition receive_except (r : recv_result) (e : exn) : M state unit :=
  match e with
  | ConnectionClosed =>
      world_op (eprint "WebSocket connection closed") ;;
      _reconnect (after_recv r)
  | _ => world_op (eprint ("Error receiving: " +:+ exn_str e))
  end.

(** The body of the [while] loop of [receive_transcriptions]. *)
Definition receive_body (sig : bool) (r : recv_result) : M state unit :=
  try_except (receive_try sig r) (receive_except r).

(** [send_audio], run on the events of a finite stretch of time. *)
Fixpoint send_audio (evs : list send_event) (st : state)
  : task_status * state :=
  match evs with
  | [] => (if running (self st) then Pending else Done, st)
  | SendSignal :: rest => send_audio rest (snd (signal_handler st))
  | SendTurn sig rd sd :: rest =>
      if running (self st) then
        match send_audio_body sig rd sd st with
        | (Val Continue, st') => send_audio rest st'
        | (_, st') => (Done, st')
        end
      else (Done, st)
  end.

(** [receive_transcriptions], likewise. *)
Fixpoint receive_transcriptions (evs : list recv_event) (st : state)
  : task_status * state :=
  match evs with
  | [] => (if running (self st) then Pending else Done, st)
  | RecvSignal :: rest => receive_transcriptions rest (snd (signal_handler st))
  | RecvTurn sig r :: rest =>
      if running (self st) then
        receive_transcriptions rest (snd (receive_body sig r st))
      else (Done, st)
  end.

(** The [finally] block of [run]; [now] is the UTC time at the call of
    [update_metadata_ended].  [await self.ws.close()] changes nothing of
    the state kept here. *)
Definition run_finally (now : string) : M state unit :=
  self_op (set_running false) ;;
  m <- attr ident ;;
  world_op (update_metadata_ended m now) ;;
  world_op remove_current_link.

(** [run].  [gather] is what
    [asyncio.gather(self.send_audio(), self.receive_transcriptions(),
    return_exceptions=True)] does to the state: it returns without raising,
    whatever the two loops do.  [started] and [ended_at] are the UTC times
    at the setup and in the [finally] block, [out] answers the first
    connection attempt. *)
Definition run (gather : state -> state) (started ended_at : string)
    (out : connect_outcome) : M state unit :=
  m <- attr ident ;;
  world_op (setup_meeting_directory m started) ;;
  fun st =>
    let '(r, st1) :=
      try_except (connect out ;; fun s => (Val tt, gather s))
                 (fun e => world_op (eprint ("Error: " +:+ exn_str e))) st in
    match run_finally ended_at st1 with
    | (Val _, st2) => (r, st2)
    | (Exn e, st2) => (Exn e, st2)
    end.

End MeetingTranscriber.

(* ===================================================================== *)
(** ** Vocabulary of the properties *)
(* ===================================================================== *)

Import MeetingTranscriber.

(** A run of reconnect attempts, one after the other. *)
Definition reconnects (outs : list connect_outcome) (st : state) : state :=
  fold_left (fun s out => snd (_reconnect out s)) outs st.

(** The bounds on the stored delay. *)
Definition delay_ok (t : transcriber) : Prop :=
  1 <= reconnect_delay t <= 30 /\ max_reconnect_delay t = 30.

(** A client right after [__init__], in a world with an empty file system;
    used to run the code on concrete inputs. *)
Definition fs0 : filesystem := mkFs ∅ ∅ ∅ ∅ ∅.

Definition world0 : world :=
  mkWorld "/tmp/meetings" "/root" ["claude"; "assistant"; "ai"] fs0 [] [] 0.

Definition self0 : transcriber := __init__ world0 "abc-defg-hij" "https://meet.google.com/abc-defg-hij".

Definition state0 : state := mkState self0 world0 [].

(** The workspace of [state0] as [setup_meeting_directory] of the streaming
    client leaves it. *)
Definition meeting0 : meeting := ident self0.

Definition world1 : world :=
  snd (MeetingTranscriber.setup_meeting_directory meeting0
         "2026-01-05T10:00:00Z" world0).

(** The workspace of [world1] after a first line has been written. *)
Definition world_used : world :=
  snd (_write_transcript meeting0 "10:00:01" "good morning" world1).

(** The text of the file at [p] that did not come from [json.dump]; the
    whole text for the transcript and the mentions file.  Empty when there
    is no file. *)
Definition content (d : filesystem) (p : string) : string :=
  raw (default (mkFile None "") (files d !! p)).

(** The JSON document of the file at [p], when it holds one. *)
Definition document (d : filesystem) (p : string) : option json :=
  match files d !! p with
  | Some f => doc f
  | None => None
  end.

(** The metadata record after [update_metadata_ended] at time [now], when
    the record before it was the object [d]. *)
Definition ended (now : string) (d : list (string * json)) : json :=
  JDict (dict_set "status" (JStr "ended") (dict_set "ended_at" (JStr now) d)).


(** The world after [update_metadata_ended] has caught the exception
    [e]: the error is on the log. *)
Definition reported (e : exn) (w : world) : world :=
  set_stderr (stderr w ++ ["Error updating metadata: " +:+ exn_str e]) w.

(** The value of key [k] in the JSON object stored at [p]. *)
Definition field (w : world) (p k : string) : option json :=
  match document (fs w) p with
  | Some (JDict d) => dict_get k d
  | _ => None
  end.

(** The file system after [s] has been added at the end of the file at
    [p]. *)
Definition appended (p s : string) (d : filesystem) : filesystem :=
  let old := default (mkFile None "") (files d !! p) in
  set_files (<[p := mkFile (doc old) (raw old +:+ s)]> (files d)) d.

(** *** Mention records *)

(** The two kinds of record in the mentions file. *)
Inductive kind : Type := QUESTION | MENTION.

Definition record_line (k : kind) (timestamp transcript : string) : string :=
  match k with
  | QUESTION => question_line timestamp transcript
  | MENTION => mention_line timestamp transcript
  end.

(** What [_check_mentions] decides before it writes: the first keyword of
    the list that occurs in the text, whatever the case of either, and the
    kind of the record; [None] when no keyword occurs. *)
Definition classify (text : string) (keywords : list string)
  : option (kind * string) :=
  match find (fun keyword => Py.contains (Py.lower keyword) (Py.lower text))
             keywords with
  | Some keyword =>
      Some (if is_question text then QUESTION else MENTION, keyword)
  | None => None
  end.

(** [p] occurs in [s] as a substring. *)
Definition occurs (p s : string) : Prop :=
  exists a b : string, s = a +:+ p +:+ b.

(** *** The receiving path *)

(** The text that a decoded event adds to the transcript: the stripped
    transcript of a completed transcription, when it is a string that is
    not blank. *)
Definition completed_text (event : json) : option string :=
  match event with
  | JDict d =>
      if is_str (default (JStr "") (dict_get "type" d)) completed then
        match default (JStr "") (dict_get "transcript" d) with
        | JStr t => if Py.truthy (Py.strip t) then Some (Py.strip t) else None
        | _ => None
        end
      else None
  | _ => None
  end.

(** The transcript line of one receive: empty unless a completed
    transcription with text arrived. *)
Definition line_of (r : recv_result) : string :=
  match r with
  | RecvMessage (Some event) hms =>
      match completed_text event with
      | Some t => transcript_line hms t
      | None => ""
      end
  | _ => ""
  end.

(** The receives that the loop of [receive_transcriptions] makes on a list
    of events, in order: a signal ends the loop, a signal during a receive
    ends it after that receive. *)
Fixpoint received (alive : bool) (evs : list recv_event) : list recv_result :=
  match evs with
  | [] => []
  | RecvSignal :: rest => received false rest
  | RecvTurn sig r :: rest =>
      if alive then r :: received (negb sig) rest else []
  end.

Definition lines_of (rs : list recv_result) : string :=
  fold_right (fun r acc => line_of r +:+ acc) "" rs.

(** [st'] has the files, the identity, the keywords and the running flag of
    [st], and a connection object when [st] has one. *)
Definition keeps_store (st st' : state) : Prop :=
  fs (env st') = fs (env st) /\
  ident (self st') = ident (self st) /\
  running (self st') = running (self st) /\
  MENTION_KEYWORDS (env st') = MENTION_KEYWORDS (env st) /\
  (ws (self st) <> None -> ws (self st') <> None).

(** [st] with the lines [l] added to the log. *)
Definition logged (l : list string) (st : state) : state :=
  set_env (set_stderr (stderr (env st) ++ l) (env st)) st.

(** A completed transcription with transcript [t], and its receive at
    [hms]. *)
Definition completed_event (t : string) : json :=
  JDict [("type", JStr completed); ("transcript", JStr t)].

Definition heard (t hms : string) : recv_event :=
  RecvTurn false (RecvMessage (Some (completed_event t)) hms).

(** *** The forwarding path *)

(** The audio chunks on the wire, oldest first. *)
Fixpoint audio_sent (l : list (nat * frame)) : list (list Byte.byte) :=
  match l with
  | [] => []
  | (_, AudioAppend chunk) :: rest => chunk :: audio_sent rest
  | (_, SessionUpdate) :: rest => audio_sent rest
  end.

(** The chunks read from standard input in a list of events, in order. *)
Fixpoint produced (evs : list send_event) : list (list Byte.byte) :=
  match evs with
  | [] => []
  | SendTurn _ (ReadBytes chunk) _ :: rest => chunk :: produced rest
  | _ :: rest => produced rest
  end.

(** *** Failing storage *)

(** [w] with the path [p] made unwritable. *)
Definition lock (p : string) (w : world) : world :=
  set_fs (mkFs (files (fs w)) (symlinks (fs w)) (dirs (fs w))
               ({[p]} ∪ unwritable (fs w)) (torn (fs w))) w.

(** The workspace of [world1] after the transcript file has become
    unwritable, and a connected client in it. *)
Definition world_ro : world := lock (transcript_path meeting0) world1.

Definition connected (w : world) : state :=
  snd (connect ConnOk (mkState (__init__ w "abc-defg-hij" "https://meet.google.com/abc-defg-hij") w [])).

(** What one turn of the forwarding loop puts on the wire: the chunk read,
    when it is not empty, there is a connection object and the send goes
    through. *)
Definition forwarded (rd : read_result) (sd : send_result)
    (conn : option nat) : list (list Byte.byte) :=
  match rd, conn, sd with
  | ReadBytes (b :: bs), Some _, SendOk => [b :: bs]
  | _, _, _ => []
  end.

(** *** Connections *)

(** The session updates that a run of connection attempts puts on the
    wire when the next connection gets the number [n]: one for each
    attempt that succeeds, on a connection of its own. *)
Fixpoint handshakes (n : nat) (outs : list connect_outcome)
  : list (nat * frame) :=
  match outs with
  | [] => []
  | ConnOk :: rest => (n, SessionUpdate) :: handshakes (S n) rest
  | ConnHandshakeFailed :: rest => handshakes (S n) rest
  | ConnRefused :: rest => handshakes n rest
  end.


(** [st'] differs from [st] by log lines at most. *)
Definition quiet (st st' : state) : Prop :=
  self st' = self st /\
  fs (env st') = fs (env st) /\
  wire (env st') = wire (env st) /\
  opened (env st') = opened (env st) /\
  waited st' = waited st.

(** The mention record of one receive, for the keywords in force: empty
    unless a completed transcription with text arrived and a keyword
    occurs in it. *)
Definition record_of (keywords : list string) (r : recv_result) : string :=
  match r with
  | RecvMessage (Some event) hms =>
      match completed_text event with
      | Some t =>
          match classify t keywords with
          | Some (k, _) => record_line k hms t
          | None => ""
          end
      | None => ""
      end
  | _ => ""
  end.

Definition records_of (keywords : list string) (rs : list recv_result)
  : string :=
  fold_right (fun r acc => record_of keywords r +:+ acc) "" rs.

(** An empty workspace in which a regular file is where the [current]
    link goes. *)
Definition world_blocked : world :=
  set_fs (set_files (<["/tmp/meetings/current" := mkFile None "x"]> ∅) fs0)
         world0.

(* ===================================================================== *)
(** ** Reconnect backoff *)
(* ===================================================================== *)

Ltac monad_unfold :=
  unfold _reconnect, connect, open_connection, emit, backoff_sleep,
    signal_handler, deliver, world_op, self_op, attr, eprint, io,
    bind, ret, raise, try_except, gets, get, modify, zoom in *.

Lemma init_delay_ok w id url :
  delay_ok (__init__ w id url) /\ reconnect_delay (__init__ w id url) = 1.
Proof. unfold delay_ok; simpl; lia. Qed.


(** One attempt, when the client is running: the stored delay is slept,
    then doubled under the ceiling, then reset if the attempt succeeds. *)
Lemma reconnect_running out st :
  running (self st) = true ->
  let d := reconnect_delay (self st) in
  let st' := snd (_reconnect out st) in
  fst (_reconnect out st) = Val tt /\
  waited st' = waited st ++ [d] /\
  running (self st') = true /\
  max_reconnect_delay (self st') = max_reconnect_delay (self st) /\
  reconnect_delay (self st') =
    match out with
    | ConnOk => 1
    | _ => Z.min (d * 2) (max_reconnect_delay (self st))
    end.
Proof.
  intros Hrun. monad_unfold. simpl. rewrite Hrun. simpl.
  destruct out; simpl; rewrite ?Hrun; auto.
Qed.

Lemma reconnect_stopped out st :
  running (self st) = false -> _reconnect out st = (Val tt, st).
Proof. intros Hrun. monad_unfold. simpl. rewrite Hrun. reflexivity. Qed.


Lemma reconnects_cons out outs st :
  reconnects (out :: outs) st = reconnects outs (snd (_reconnect out st)).
Proof. reflexivity. Qed.






(* ===================================================================== *)
(** ** Dictionaries and the file system *)
(* ===================================================================== *)

Lemma dict_get_set_eq k v d : dict_get k (dict_set k v d) = Some v.
Proof.
  induction d as [|[k' v'] d IH]; simpl.
  - now rewrite String.eqb_refl.
  - destruct (String.eqb k k') eqn:E; simpl.
    + now rewrite String.eqb_refl.
    + now rewrite E.
Qed.

Lemma dict_get_set_ne k k' v d :
  k <> k' -> dict_get k (dict_set k' v d) = dict_get k d.
Proof.
  intros Hne. apply String.eqb_neq in Hne.
  induction d as [|[k0 v0] d IH]; simpl.
  - now rewrite Hne.
  - destruct (String.eqb k' k0) eqn:E; simpl.
    + apply String.eqb_eq in E. subst k0. now rewrite Hne.
    + now rewrite IH.
Qed.

Lemma dict_set_set k v v' d : dict_set k v (dict_set k v' d) = dict_set k v d.
Proof.
  induction d as [|[k0 v0] d IH]; simpl.
  - now rewrite String.eqb_refl.
  - destruct (String.eqb k k0) eqn:E; simpl.
    + now rewrite String.eqb_refl.
    + now rewrite E, IH.
Qed.

(** Overwriting [k1] after [k2] was set on top of an older [k1]: the older
    value leaves no trace, and no key moves. *)
Lemma dict_set_over k1 k2 v1 v1' v2 d :
  k1 <> k2 ->
  dict_set k1 v1' (dict_set k2 v2 (dict_set k1 v1 d))
  = dict_set k2 v2 (dict_set k1 v1' d).
Proof.
  intros Hne.
  assert (H12 : String.eqb k1 k2 = false) by now apply String.eqb_neq.
  assert (H21 : String.eqb k2 k1 = false)
    by (apply String.eqb_neq; congruence).
  induction d as [|[k0 v0] d IH]; simpl.
  - rewrite !H21. simpl. now rewrite String.eqb_refl.
  - destruct (String.eqb k1 k0) eqn:E1; simpl.
    + rewrite !H21. simpl. now rewrite String.eqb_refl.
    + destruct (String.eqb k2 k0) eqn:E2; simpl;
        rewrite ?H12, ?E1, ?E2; simpl; rewrite ?E1, ?E2.
      * now rewrite dict_set_set.
      * now rewrite IH.
Qed.

Lemma ended_again now now' d :
  match ended now d with
  | JDict d1 => ended now' d1
  | other => other
  end = ended now' d.
Proof.
  unfold ended. f_equal.
  rewrite (dict_set_over "ended_at" "status") by discriminate.
  now rewrite dict_set_set.
Qed.

Lemma set_fs_same w : set_fs (fs w) w = w.
Proof. now destruct w. Qed.

Lemma set_files_same d : set_files (files d) d = d.
Proof. now destruct d. Qed.

Ltac fs_unfold :=
  unfold update_metadata_ended, io, Fs.path_exists, Fs.load, Fs.dump,
    Fs.append, Fs.write_text, Fs.write_file, Fs.guard_writable,
    py_setitem, py_get,
    eprint, bind, ret, raise, try_except, gets, get, modify, zoom in *.

(** C10.  When nothing is at the metadata path, [update_metadata_ended]
    returns normally and leaves the whole world as it was: no file is
    created, nothing is written and nothing is logged. *)
Theorem update_metadata_ended_missing_file_is_noop
    (m : meeting) (now : string) (w : world) :
  files (fs w) !! metadata_path m = None ->
  metadata_path m ∉ dirs (fs w) ->
  update_metadata_ended m now w = (Val tt, w).
Proof.
  intros Hfile Hdir. fs_unfold. simpl. rewrite Hfile.
  rewrite (bool_decide_eq_false_2 _ Hdir). simpl.
  now rewrite set_fs_same.
Qed.

Lemma update_metadata_ended_missing_file_is_noop_witness :
  update_metadata_ended meeting0 "2026-01-05T11:00:00Z" world0
  = (Val tt, world0).
Proof.
  refine (update_metadata_ended_missing_file_is_noop meeting0 _ world0 _ _).
  - reflexivity.
  - vm_compute. intros H. inversion H.
Defined.

(** A file operation run on the world touches the file system only. *)
Lemma io_run {A} (m : M filesystem A) w :
  io m w = (fst (m (fs w)), set_fs (snd (m (fs w))) w).
Proof. unfold io, zoom. now destruct (m (fs w)). Qed.

Lemma path_exists_file p d f :
  files d !! p = Some f -> Fs.path_exists p d = (Val true, d).
Proof.
  intros H. unfold Fs.path_exists, gets. rewrite H.
  rewrite bool_decide_eq_true_2 by eauto. reflexivity.
Qed.

(** The effect of [update_metadata_ended] on a metadata file that holds a
    JSON object. *)
Lemma update_metadata_ended_object m now w d r :
  files (fs w) !! metadata_path m = Some (mkFile (Some (JDict d)) r) ->
  Fs.all_json_ws r = true ->
  metadata_path m ∉ unwritable (fs w) ->
  update_metadata_ended m now w
  = (Val tt,
     set_fs (set_files (<[metadata_path m := mkFile (Some (ended now d)) ""]>
                          (files (fs w))) (fs w)) w).
Proof.
  intros Hfile Hws Hwr. unfold update_metadata_ended, bind, try_except.
  rewrite io_run, (path_exists_file _ _ _ Hfile). simpl.
  rewrite set_fs_same, io_run. unfold Fs.load. rewrite Hfile, Hws. simpl.
  rewrite set_fs_same. unfold ret. rewrite io_run.
  unfold Fs.dump, Fs.write_file.
  rewrite (bool_decide_eq_false_2 _ Hwr). reflexivity.
Qed.

Lemma field_inserted w p v k :
  field (set_fs (set_files (<[p := mkFile (Some (JDict v)) ""]> (files (fs w)))
                   (fs w)) w) p k = dict_get k v.
Proof. unfold field, document. simpl. now rewrite lookup_insert_eq. Qed.

(** C2, as stated, fails: a second call is not without effect.  On the
    workspace that [setup_meeting_directory] has just created, a call at
    11:00 stores that time in [ended_at], and a further call at 12:00
    replaces it, so the metadata record has changed. *)
Lemma update_metadata_ended_second_call_changes_ended_at :
  let p := metadata_path meeting0 in
  let w1 := snd (update_metadata_ended meeting0 "2026-01-05T11:00:00Z" world1) in
  let w2 := snd (update_metadata_ended meeting0 "2026-01-05T12:00:00Z" w1) in
  field w1 p "status" = Some (JStr "ended") /\
  field w1 p "ended_at" = Some (JStr "2026-01-05T11:00:00Z") /\
  field w2 p "ended_at" = Some (JStr "2026-01-05T12:00:00Z") /\
  document (fs w2) p <> document (fs w1) p.
Proof.
  cbv zeta. split; [|split; [|split]]; vm_compute; congruence.
Qed.

(** C2, amended.  When the metadata file holds a JSON object and can be
    written, a call of [update_metadata_ended] at time [now] leaves
    [status] at "ended" and [ended_at] at [now].  Every call does this
    again: a further call at time [now'] leaves [ended_at] at [now'], and
    the world it leaves is the one a single call at [now'] would have
    left.  The further call is without effect only when the clock has not
    moved. *)
Theorem update_metadata_ended_overwrites m now now' w d r :
  files (fs w) !! metadata_path m = Some (mkFile (Some (JDict d)) r) ->
  Fs.all_json_ws r = true ->
  metadata_path m ∉ unwritable (fs w) ->
  let w1 := snd (update_metadata_ended m now w) in
  let w2 := snd (update_metadata_ended m now' w1) in
  field w1 (metadata_path m) "status" = Some (JStr "ended") /\
  field w1 (metadata_path m) "ended_at" = Some (JStr now) /\
  field w2 (metadata_path m) "status" = Some (JStr "ended") /\
  field w2 (metadata_path m) "ended_at" = Some (JStr now') /\
  w2 = snd (update_metadata_ended m now' w) /\
  (now' = now -> w2 = w1).
Proof.
  intros Hfile Hws Hwr w1 w2.
  assert (E : forall t, snd (update_metadata_ended m t w)
            = set_fs (set_files (<[metadata_path m :=
                                     mkFile (Some (ended t d)) ""]>
                                   (files (fs w))) (fs w)) w).
  { intros t. now rewrite (update_metadata_ended_object m t w d r). }
  assert (E2 : w2 = snd (update_metadata_ended m now' w)).
  { subst w2 w1. rewrite !E. unfold ended at 1.
    rewrite (update_metadata_ended_object m now' _
               (dict_set "status" (JStr "ended")
                  (dict_set "ended_at" (JStr now) d)) "").
    - simpl. rewrite insert_insert_eq.
      pose proof (ended_again now now' d) as Ha. unfold ended at 1 in Ha.
      now rewrite Ha.
    - simpl. apply lookup_insert_eq.
    - reflexivity.
    - exact Hwr. }
  assert (F : forall t k, field (snd (update_metadata_ended m t w))
                            (metadata_path m) k
              = dict_get k (dict_set "status" (JStr "ended")
                              (dict_set "ended_at" (JStr t) d))).
  { intros t k. rewrite E. unfold ended. apply field_inserted. }
  rewrite E2. subst w1. rewrite !F.
  rewrite !(dict_get_set_ne "ended_at" "status") by discriminate.
  rewrite !dict_get_set_eq.
  do 5 (split; [reflexivity|]). intros ->. reflexivity.
Qed.

Lemma update_metadata_ended_overwrites_witness :
  field (snd (update_metadata_ended meeting0 "2026-01-05T12:00:00Z"
                (snd (update_metadata_ended meeting0 "2026-01-05T11:00:00Z"
                        world1))))
        (metadata_path meeting0) "ended_at"
  = Some (JStr "2026-01-05T12:00:00Z").
Proof.
  refine (proj1 (proj2 (proj2 (proj2
    (update_metadata_ended_overwrites meeting0 "2026-01-05T11:00:00Z"
       "2026-01-05T12:00:00Z" world1
       [ ("meeting_id", JStr "abc-defg-hij");
         ("url", JStr "https://meet.google.com/abc-defg-hij");
         ("started_at", JStr "2026-01-05T10:00:00Z");
         ("ended_at", JNull);
         ("participant_name", JStr "Claude Assistant");
         ("status", JStr "active") ] "" _ _ _))))).
  - vm_compute. reflexivity.
  - reflexivity.
  - refine (bool_decide_unpack _ _). vm_compute. exact I.
Defined.

(* ===================================================================== *)
(** ** Transcript lines and mention records *)
(* ===================================================================== *)


Lemma append_run p s d :
  Fs.append p s d =
  if bool_decide (p ∈ unwritable d) then (Exn (OSError p), d)
  else (Val tt, appended p s d).
Proof.
  unfold Fs.append, Fs.guard_writable, bind, modify.
  now destruct (bool_decide (p ∈ unwritable d)).
Qed.

Lemma content_appended_same p s d :
  content (appended p s d) p = content d p +:+ s.
Proof. unfold content, appended. simpl. now rewrite lookup_insert_eq. Qed.

Lemma content_appended_other p q s d :
  p <> q -> content (appended p s d) q = content d q.
Proof.
  intros H. unfold content, appended. simpl. now rewrite lookup_insert_ne.
Qed.


(** The loop over the keywords writes the record that [classify] names. *)
Lemma check_keywords_classify m ts t kws w :
  check_keywords m ts t kws w =
  match classify t kws with
  | Some (k, _) =>
      (io (Fs.append (mentions_path m) (record_line k ts t)) ;;
       eprint (">>> MENTION DETECTED: " +:+ t)) w
  | None => (Val tt, w)
  end.
Proof.
  unfold classify. induction kws as [|kw kws IH]; simpl; [reflexivity|].
  destruct (Py.contains (Py.lower kw) (Py.lower t)).
  - now destruct (is_question t).
  - exact IH.
Qed.

(** What [_check_mentions] leaves: the world it found, or that world with
    one record and one log line more. *)
Lemma check_mentions_run m ts t w :
  _check_mentions m ts t w =
  match classify t (MENTION_KEYWORDS w) with
  | None => (Val tt, w)
  | Some (k, _) =>
      if bool_decide (mentions_path m ∈ unwritable (fs w))
      then (Exn (OSError (mentions_path m)), w)
      else (Val tt,
            set_stderr (stderr w ++ [">>> MENTION DETECTED: " +:+ t])
              (set_fs (appended (mentions_path m) (record_line k ts t)
                         (fs w)) w))
  end.
Proof.
  unfold _check_mentions, bind, gets. rewrite check_keywords_classify.
  destruct (classify t (MENTION_KEYWORDS w)) as [[k kw]|]; [|reflexivity].
  unfold bind. rewrite io_run, append_run.
  destruct (bool_decide (mentions_path m ∈ unwritable (fs w))); simpl.
  - now rewrite set_fs_same.
  - reflexivity.
Qed.

Lemma write_transcript_fails m ts t w :
  transcript_path m ∈ unwritable (fs w) ->
  _write_transcript m ts t w = (Exn (OSError (transcript_path m)), w).
Proof.
  intros H. unfold _write_transcript, bind. rewrite io_run, append_run.
  rewrite (bool_decide_eq_true_2 _ H). simpl. now rewrite set_fs_same.
Qed.

Lemma write_transcript_run m ts t w :
  transcript_path m ∉ unwritable (fs w) ->
  _write_transcript m ts t w =
  _check_mentions m ts t
    (set_stderr (stderr w ++ ["[" +:+ ts +:+ "] " +:+ t])
       (set_fs (appended (transcript_path m) (transcript_line ts t) (fs w))
          w)).
Proof.
  intros H. unfold _write_transcript, bind. rewrite io_run, append_run.
  rewrite (bool_decide_eq_false_2 _ H). reflexivity.
Qed.

(** What [_write_transcript] leaves of the world, whatever happens. *)
Lemma write_transcript_config m ts t w :
  let w' := snd (_write_transcript m ts t w) in
  unwritable (fs w') = unwritable (fs w) /\
  MENTION_KEYWORDS w' = MENTION_KEYWORDS w /\
  wire w' = wire w /\ opened w' = opened w.
Proof.
  cbv zeta. destruct (decide (transcript_path m ∈ unwritable (fs w))) as [H|H].
  - rewrite write_transcript_fails by assumption. auto.
  - rewrite write_transcript_run, check_mentions_run by assumption.
    simpl.
    destruct (classify t (MENTION_KEYWORDS w)) as [[k kw]|]; simpl; auto.
    destruct (bool_decide (mentions_path m ∈ unwritable (fs w))); simpl; auto.
Qed.

(** When the transcript can be written, [_write_transcript] adds its line
    at the end, whether or not a mention record follows. *)
Lemma write_transcript_content m ts t w :
  transcript_path m <> mentions_path m ->
  transcript_path m ∉ unwritable (fs w) ->
  content (fs (snd (_write_transcript m ts t w))) (transcript_path m)
  = content (fs w) (transcript_path m) +:+ transcript_line ts t.
Proof.
  intros Hne H. rewrite write_transcript_run, check_mentions_run by assumption.
  simpl.
  destruct (classify t (MENTION_KEYWORDS w)) as [[k kw]|]; simpl.
  - destruct (bool_decide (mentions_path m ∈ unwritable (fs w))); simpl.
    + apply content_appended_same.
    + rewrite content_appended_other by congruence. apply content_appended_same.
  - apply content_appended_same.
Qed.

(** The mentions file after [_write_transcript]: as before, or with the
    record of this line added. *)
Lemma write_transcript_mentions m ts t w :
  transcript_path m <> mentions_path m ->
  let before := content (fs w) (mentions_path m) in
  let after := content (fs (snd (_write_transcript m ts t w)))
                 (mentions_path m) in
  after = before \/
  ((transcript_path m ∉ unwritable (fs w)) /\
   exists k kw, classify t (MENTION_KEYWORDS w) = Some (k, kw) /\
                after = before +:+ record_line k ts t).
Proof.
  intros Hne. cbv zeta.
  destruct (decide (transcript_path m ∈ unwritable (fs w))) as [H|H].
  - rewrite write_transcript_fails by assumption. now left.
  - rewrite write_transcript_run, check_mentions_run by assumption.
    simpl.
    destruct (classify t (MENTION_KEYWORDS w)) as [[k kw]|]; simpl.
    + destruct (bool_decide (mentions_path m ∈ unwritable (fs w))); simpl.
      * left. now apply content_appended_other.
      * right. split; [assumption|]. exists k, kw. split; [reflexivity|].
        rewrite content_appended_same. f_equal.
        now apply content_appended_other.
    + left. now apply content_appended_other.
Qed.

(** C6.  [_write_transcript] looks for mentions only after the line is in
    the transcript file.  When the transcript cannot be written the call
    raises and leaves the world as it was, so nothing reaches the mentions
    file or the log; and whenever a call changes the mentions file, it has
    added the line to the transcript and the change is the one record of
    that line. *)
Theorem mention_detection_follows_persisted_line m ts t w :
  transcript_path m <> mentions_path m ->
  let r := _write_transcript m ts t w in
  (transcript_path m ∈ unwritable (fs w) ->
   r = (Exn (OSError (transcript_path m)), w)) /\
  (content (fs (snd r)) (mentions_path m) <> content (fs w) (mentions_path m) ->
   content (fs (snd r)) (transcript_path m)
   = content (fs w) (transcript_path m) +:+ transcript_line ts t /\
   exists k kw,
     classify t (MENTION_KEYWORDS w) = Some (k, kw) /\
     content (fs (snd r)) (mentions_path m)
     = content (fs w) (mentions_path m) +:+ record_line k ts t).
Proof.
  intros Hne r. subst r. split.
  - apply write_transcript_fails.
  - intros Hch.
    destruct (write_transcript_mentions m ts t w Hne) as [E|[Hw Hrec]];
      [congruence|].
    split; [now apply write_transcript_content|exact Hrec].
Qed.

Lemma mention_detection_follows_persisted_line_witness :
  _write_transcript meeting0 "10:00:01" "what about claude" world_ro
  = (Exn (OSError (transcript_path meeting0)), world_ro).
Proof.
  refine (proj1 (mention_detection_follows_persisted_line meeting0
                   "10:00:01" "what about claude" world_ro _) _).
  - intros H. vm_compute in H. discriminate H.
  - refine (bool_decide_unpack _ _). vm_compute. exact I.
Defined.

(* ===================================================================== *)
(** ** The receiving path *)
(* ===================================================================== *)

Lemma append_nil_r (s : string) : s +:+ "" = s.
Proof.
  induction s as [|a s IH]; [reflexivity|].
  change (String a (s +:+ "") = String a s). now rewrite IH.
Qed.

Lemma append_assoc (a b c : string) : (a +:+ b) +:+ c = a +:+ b +:+ c.
Proof.
  induction a as [|x a IH]; [reflexivity|].
  change (String x ((a +:+ b) +:+ c) = String x (a +:+ b +:+ c)).
  now rewrite IH.
Qed.

Lemma world_op_run {A} (m : M world A) st :
  world_op m st = (fst (m (env st)), set_env (snd (m (env st))) st).
Proof. unfold world_op, zoom. now destruct (m (env st)). Qed.

Lemma keeps_store_refl st : keeps_store st st.
Proof. unfold keeps_store; auto. Qed.

Lemma keeps_store_trans st1 st2 st3 :
  keeps_store st1 st2 -> keeps_store st2 st3 -> keeps_store st1 st3.
Proof.
  unfold keeps_store. intros (A1 & A2 & A3 & A4 & A5) (B1 & B2 & B3 & B4 & B5).
  repeat split; try congruence. auto.
Qed.

Lemma keeps_store_log s st : keeps_store st (snd (world_op (eprint s) st)).
Proof. unfold keeps_store; simpl; auto. Qed.

Lemma keeps_store_connect out st :
  keeps_store st (snd (connect out st)).
Proof.
  unfold keeps_store. destruct out; simpl; repeat split; auto; discriminate.
Qed.

Lemma keeps_store_reconnect out st :
  keeps_store st (snd (_reconnect out st)).
Proof.
  destruct (running (self st)) eqn:Hrun.
  - unfold keeps_store. monad_unfold. simpl. rewrite Hrun. simpl.
    destruct out; simpl; repeat split; auto; discriminate.
  - rewrite reconnect_stopped by assumption. apply keeps_store_refl.
Qed.

(** A completed transcription with text is handed to [_write_transcript],
    stripped. *)
Lemma handle_event_text event hms st t :
  completed_text event = Some t ->
  handle_event event hms st
  = world_op (_write_transcript (ident (self st)) hms t) st.
Proof.
  intros H. destruct event as [| | | |l|d]; simpl in H; try discriminate.
  unfold handle_event, py_get, bind, ret. simpl.
  destruct (is_str (default (JStr "") (dict_get "type" d)) completed);
    [|discriminate].
  destruct (default (JStr "") (dict_get "transcript" d)) as [| | |s| |];
    try discriminate.
  simpl. destruct (Py.truthy (Py.strip s)); [|discriminate].
  inversion H; subst. reflexivity.
Qed.

(** Every other event leaves the files alone. *)
Lemma handle_event_no_text event hms st :
  completed_text event = None ->
  keeps_store st (snd (handle_event event hms st)).
Proof.
  intros H. destruct event as [| | | |l|d]; try apply keeps_store_refl.
  simpl in H. unfold handle_event, py_get, bind, ret. simpl.
  destruct (is_str (default (JStr "") (dict_get "type" d)) completed).
  - destruct (default (JStr "") (dict_get "transcript" d)) as [| | |s| |];
      simpl; try apply keeps_store_refl.
    destruct (Py.truthy (Py.strip s)); [discriminate|apply keeps_store_refl].
  - repeat match goal with
           | |- context [if ?b then _ else _] => destruct b
           end; simpl; try apply keeps_store_refl.
    unfold keeps_store; simpl; auto.
Qed.

Lemma deliver_run sig st :
  deliver sig st = (Val tt, snd (deliver sig st)) /\
  keeps_store (set_self (set_running (running (self st) && negb sig) (self st))
                 st)
              (snd (deliver sig st)).
Proof.
  destruct sig; simpl.
  - split; [reflexivity|]. rewrite andb_false_r.
    unfold keeps_store; simpl; auto.
  - split; [reflexivity|]. rewrite andb_true_r.
    unfold keeps_store; simpl; auto.
Qed.

Lemma receive_except_run r e st :
  fst (receive_except r e st) = Val tt /\
  keeps_store st (snd (receive_except r e st)).
Proof.
  assert (L : forall s, fst (world_op (eprint s) st) = Val tt /\
                        keeps_store st (snd (world_op (eprint s) st))).
  { intros s. split; [reflexivity|apply keeps_store_log]. }
  destruct e; try apply L.
  unfold receive_except, bind. simpl. split.
  - destruct (running (self st)) eqn:Hrun.
    + apply (reconnect_running (after_recv r)
               (set_env (set_stderr (stderr (env st) ++
                                     ["WebSocket connection closed"]) (env st))
                  st) Hrun).
    + now rewrite reconnect_stopped.
  - eapply keeps_store_trans; [|apply keeps_store_reconnect].
    unfold keeps_store; simpl; auto.
Qed.

Lemma receive_try_step sig r st :
  let m := ident (self st) in
  ws (self st) <> None ->
  transcript_path m <> mentions_path m ->
  transcript_path m ∉ unwritable (fs (env st)) ->
  let st' := snd (receive_try sig r st) in
  ident (self st') = m /\
  ws (self st') <> None /\
  running (self st') = running (self st) && negb sig /\
  unwritable (fs (env st')) = unwritable (fs (env st)) /\
  content (fs (env st')) (transcript_path m)
  = content (fs (env st)) (transcript_path m) +:+ line_of r.
Proof.
  intros m Hws Hne Hwr. cbv zeta.
  unfold receive_try, bind, attr, gets. simpl.
  destruct (ws (self st)) as [c|] eqn:Ews; [clear Hws|congruence].
  destruct (deliver_run sig st) as [E (K1 & K2 & K3 & K4 & K5)].
  rewrite E. set (st1 := snd (deliver sig st)) in *. simpl in K1, K2, K3, K4, K5.
  assert (Hws1 : ws (self st1) <> None) by (apply K5; congruence).
  assert (Base : ident (self st1) = m /\ ws (self st1) <> None /\
                 running (self st1) = running (self st) && negb sig /\
                 unwritable (fs (env st1)) = unwritable (fs (env st)) /\
                 content (fs (env st1)) (transcript_path m)
                 = content (fs (env st)) (transcript_path m) +:+ "").
  { rewrite K1, append_nil_r. auto. }
  destruct r as [[event|] hms|c'|]; simpl; try exact Base.
  destruct (completed_text event) as [t|] eqn:Hct.
  - rewrite (handle_event_text _ _ _ _ Hct), world_op_run. simpl.
    rewrite K2. fold m.
    destruct (write_transcript_config m hms t (env st1)) as (C1 & _).
    split; [reflexivity|]. split; [assumption|]. split; [assumption|].
    split; [now rewrite C1, K1|].
    rewrite write_transcript_content; [now rewrite K1|assumption|].
    now rewrite K1.
  - destruct (handle_event_no_text event hms st1 Hct)
      as (H1 & H2 & H3 & H4 & H5).
    rewrite H1, H2, H3. destruct Base as (B1 & B2 & B3 & B4 & B5).
    auto.
Qed.

(** One turn of the receiving loop, when there is a connection object and
    the transcript can be written: the transcript grows by the line of the
    receive, and by nothing else. *)
Lemma receive_body_step sig r st :
  let m := ident (self st) in
  ws (self st) <> None ->
  transcript_path m <> mentions_path m ->
  transcript_path m ∉ unwritable (fs (env st)) ->
  let st' := snd (receive_body sig r st) in
  ident (self st') = m /\
  ws (self st') <> None /\
  running (self st') = running (self st) && negb sig /\
  unwritable (fs (env st')) = unwritable (fs (env st)) /\
  content (fs (env st')) (transcript_path m)
  = content (fs (env st)) (transcript_path m) +:+ line_of r.
Proof.
  intros m Hws Hne Hwr. cbv zeta.
  pose proof (receive_try_step sig r st Hws Hne Hwr) as Hs. cbv zeta in Hs.
  unfold receive_body, try_except.
  destruct (receive_try sig r st) as [[u|e] s]; simpl in *; [exact Hs|].
  destruct (receive_except_run r e s) as (_ & H1 & H2 & H3 & H4 & H5).
  destruct Hs as (B1 & B2 & B3 & B4 & B5).
  rewrite H1, H2, H3. auto.
Qed.

Lemma signal_handler_run st :
  signal_handler st
  = (Val tt, set_self (set_running false (self st))
               (set_env (set_stderr (stderr (env st) ++
                                     [nl +:+ "Shutting down..."]) (env st))
                  st)).
Proof. reflexivity. Qed.

(** C3, as stated, fails: a completed transcription does not always give a
    line.  A connected client that receives a completed transcription whose
    transcript is three spaces leaves the transcript file empty. *)
Lemma completed_event_without_transcript_line :
  fst (receive_transcriptions [heard "   " "10:00:01"] (connected world1))
  = Pending /\
  content (fs (env (snd (receive_transcriptions [heard "   " "10:00:01"]
                           (connected world1)))))
          (transcript_path meeting0) = "".
Proof. split; vm_compute; reflexivity. Qed.

(** C3, amended.  While there is a connection object and the transcript
    file can be written, the receiving loop adds to the transcript, for the
    receives it makes and in their order, one line for every completed
    transcription whose transcript is a string that is not blank, and
    nothing for any other receive: not for a blank or missing transcript,
    not for another event or a message that does not parse, and not for a
    closed connection, whose reconnect attempt neither loses nor repeats a
    line. *)
Theorem transcript_lines_follow_receives evs : forall st,
  ws (self st) <> None ->
  transcript_path (ident (self st)) <> mentions_path (ident (self st)) ->
  transcript_path (ident (self st)) ∉ unwritable (fs (env st)) ->
  content (fs (env (snd (receive_transcriptions evs st))))
          (transcript_path (ident (self st)))
  = content (fs (env st)) (transcript_path (ident (self st)))
    +:+ lines_of (received (running (self st)) evs).
Proof.
  induction evs as [|ev evs IH]; intros st Hws Hne Hwr.
  - simpl. now rewrite append_nil_r.
  - destruct ev as [|sig r].
    + change (receive_transcriptions (RecvSignal :: evs) st)
        with (receive_transcriptions evs (snd (signal_handler st))).
      rewrite signal_handler_run.
      set (st1 := snd (_, _)).
      specialize (IH st1 Hws Hne Hwr). exact IH.
    + simpl. destruct (running (self st)) eqn:Hrun.
      * destruct (receive_body_step sig r st Hws Hne Hwr)
          as (B1 & B2 & B3 & B4 & B5).
        set (st1 := snd (receive_body sig r st)) in *.
        rewrite <- B1 in Hne, Hwr |- *. rewrite <- B4 in Hwr.
        rewrite (IH st1 B2 Hne Hwr). rewrite B1 in *.
        rewrite B5, B3, Hrun. simpl. now rewrite append_assoc.
      * simpl. now rewrite append_nil_r.
Qed.

Lemma transcript_lines_follow_receives_witness :
  content (fs (env (snd (receive_transcriptions
                           [heard "hi" "10:00:01";
                            RecvTurn false (RecvClosed ConnOk);
                            heard "there" "10:00:07"]
                           (connected world1)))))
          (transcript_path meeting0)
  = "[10:00:01] hi" +:+ nl +:+ "[10:00:07] there" +:+ nl.
Proof.
  refine (eq_trans
            (transcript_lines_follow_receives
               [heard "hi" "10:00:01";
                RecvTurn false (RecvClosed ConnOk);
                heard "there" "10:00:07"]
               (connected world1) _ _ _) _).
  - vm_compute. discriminate.
  - intros H. vm_compute in H. discriminate H.
  - refine (bool_decide_unpack _ _). vm_compute. exact I.
  - vm_compute. reflexivity.
Defined.

(* ===================================================================== *)
(** ** Stripping *)
(* ===================================================================== *)

Lemma lstrip_blank s : Py.blank s = true -> Py.lstrip s = "".
Proof.
  induction s as [|a s IH]; simpl; [reflexivity|].
  destruct (Py.isspace a); simpl; [exact IH|discriminate].
Qed.

Lemma strip_blank s : Py.blank s = true -> Py.strip s = "".
Proof. intros H. unfold Py.strip. now rewrite lstrip_blank. Qed.

(** [lstrip] returns nothing or a text that starts with a character that
    is not white space. *)
Lemma lstrip_head s :
  Py.lstrip s = "" \/
  exists a r, Py.lstrip s = String a r /\ Py.isspace a = false.
Proof.
  induction s as [|a s IH]; simpl; [now left|].
  destruct (Py.isspace a) eqn:E; [exact IH|].
  right. now exists a, s.
Qed.

Lemma rstrip_head a s :
  Py.isspace a = false -> exists r, Py.rstrip (String a s) = String a r.
Proof.
  intros E. simpl. rewrite E. destruct (Py.rstrip s); eauto.
Qed.

Lemma strip_head s :
  Py.strip s = "" \/
  exists a r, Py.strip s = String a r /\ Py.isspace a = false.
Proof.
  unfold Py.strip. destruct (lstrip_head s) as [E|(a & r & E & Ha)]; rewrite E.
  - now left.
  - right. destruct (rstrip_head a r Ha) as [r' E']. now exists a, r'.
Qed.

(** A text that [completed_text] hands on is not blank. *)
Lemma completed_text_not_blank event t :
  completed_text event = Some t -> t <> "" /\ Py.blank t = false.
Proof.
  intros H. destruct event as [| | | |l|d]; simpl in H; try discriminate.
  destruct (is_str _ completed); [|discriminate].
  destruct (default (JStr "") (dict_get "transcript" d)) as [| | |s| |];
    try discriminate.
  destruct (strip_head s) as [E|(a & r & E & Ha)]; rewrite E in H; simpl in H;
    [discriminate|].
  inversion H; subst. split; [discriminate|]. simpl. now rewrite Ha.
Qed.

(** One turn of the receiving loop leaves the transcript as it was or adds
    the line of a completed transcription with text. *)
Lemma receive_body_transcript sig r st :
  let m := ident (self st) in
  transcript_path m <> mentions_path m ->
  let before := content (fs (env st)) (transcript_path m) in
  let after := content (fs (env (snd (receive_body sig r st))))
                 (transcript_path m) in
  after = before \/
  exists event hms t,
    r = RecvMessage (Some event) hms /\ completed_text event = Some t /\
    after = before +:+ transcript_line hms t.
Proof.
  intros m Hne. cbv zeta.
  assert (T : let s := snd (receive_try sig r st) in
              content (fs (env s)) (transcript_path m)
              = content (fs (env st)) (transcript_path m) \/
              exists event hms t,
                r = RecvMessage (Some event) hms /\
                completed_text event = Some t /\
                content (fs (env s)) (transcript_path m)
                = content (fs (env st)) (transcript_path m)
                  +:+ transcript_line hms t).
  { cbv zeta. unfold receive_try, bind, attr, gets. cbv beta iota.
    destruct (deliver_run sig st) as [E (K1 & K2 & K3 & K4 & K5)].
    set (st1 := snd (deliver sig st)) in *. simpl in K1, K2.
    destruct (ws (self st)) as [c|]; rewrite E; [|left; simpl; now rewrite K1].
    destruct r as [[event|] hms|c'|]; simpl; try (left; now rewrite K1).
    destruct (completed_text event) as [t|] eqn:Hct.
    - rewrite (handle_event_text _ _ _ _ Hct), world_op_run. simpl.
      rewrite K2. fold m.
      destruct (decide (transcript_path m ∈ unwritable (fs (env st1))))
        as [Hw|Hw].
      + rewrite write_transcript_fails by assumption. left. simpl.
        now rewrite K1.
      + right. exists event, hms, t. split; [reflexivity|].
        split; [assumption|].
        simpl. rewrite write_transcript_content by assumption.
        now rewrite K1.
    - destruct (handle_event_no_text event hms st1 Hct) as (H1 & _).
      left. now rewrite H1, K1. }
  cbv zeta in T. unfold receive_body, try_except.
  destruct (receive_try sig r st) as [[u|e] s]; simpl in *; [exact T|].
  destruct (receive_except_run r e s) as (_ & H1 & _). now rewrite H1.
Qed.

(** C9.  A completed transcription whose transcript is missing, empty or
    all white space is dropped: [handle_event] returns and leaves the state
    as it was, with no transcript line, no mention record and no log line,
    and so does the turn of the receiving loop that received it.  Every
    turn of the loop leaves the transcript as it was or adds the line of a
    text that is not empty and not blank. *)
Theorem blank_transcript_is_discarded d t hms st :
  dict_get "type" d = Some (JStr completed) ->
  default (JStr "") (dict_get "transcript" d) = JStr t ->
  Py.blank t = true ->
  handle_event (JDict d) hms st = (Val tt, st) /\
  receive_body false (RecvMessage (Some (JDict d)) hms) st = (Val tt, st) /\
  (forall sig r s,
     transcript_path (ident (self s)) <> mentions_path (ident (self s)) ->
     let before := content (fs (env s)) (transcript_path (ident (self s))) in
     let after := content (fs (env (snd (receive_body sig r s))))
                    (transcript_path (ident (self s))) in
     after = before \/
     exists hms' t',
       t' <> "" /\ Py.blank t' = false /\
       after = before +:+ transcript_line hms' t').
Proof.
  intros Hty Htr Hbl.
  assert (H1 : handle_event (JDict d) hms st = (Val tt, st)).
  { unfold handle_event, py_get, bind, ret. rewrite Hty, Htr. simpl.
    rewrite strip_blank by assumption. reflexivity. }
  split; [exact H1|]. split.
  - unfold receive_body, try_except, receive_try, bind, attr, gets.
    destruct (ws (self st)); simpl; [now rewrite H1|reflexivity].
  - intros sig r s Hne. cbv zeta.
    destruct (receive_body_transcript sig r s Hne)
      as [E|(event & hms' & t' & _ & Hct & E)]; [now left|].
    right. exists hms', t'.
    destruct (completed_text_not_blank _ _ Hct). auto.
Qed.

Lemma blank_transcript_is_discarded_witness :
  receive_body false (RecvMessage (Some (completed_event "   ")) "10:00:01")
    (connected world1)
  = (Val tt, connected world1).
Proof.
  refine (proj1 (proj2 (blank_transcript_is_discarded
            [("type", JStr completed); ("transcript", JStr "   ")] "   "
            "10:00:01" (connected world1) _ _ _))).
  - reflexivity.
  - reflexivity.
  - reflexivity.
Defined.

(* ===================================================================== *)
(** ** The forwarding path *)
(* ===================================================================== *)

Lemma audio_sent_app l1 l2 :
  audio_sent (l1 ++ l2) = audio_sent l1 ++ audio_sent l2.
Proof.
  induction l1 as [|[c [|chunk]] l1 IH]; simpl; [reflexivity|exact IH|].
  now rewrite IH.
Qed.

Ltac send_unfold :=
  unfold send_audio_body, ws_send, after_send; monad_unfold.

(** One turn of the forwarding loop puts on the wire the chunk it read, or
    no audio at all. *)
Lemma send_audio_body_wire sig rd sd st :
  audio_sent (wire (env (snd (send_audio_body sig rd sd st))))
  = audio_sent (wire (env st)) ++ forwarded rd sd (ws (self st)).
Proof.
  send_unfold.
  destruct sig, rd as [[|b bs]|]; simpl; rewrite ?app_nil_r; try reflexivity;
    destruct (ws (self st)) as [c|]; simpl; rewrite ?app_nil_r;
      try reflexivity;
    destruct sd as [|out|]; simpl; rewrite ?audio_sent_app, ?app_nil_r;
      try reflexivity;
    destruct (running (self st)); simpl; rewrite ?app_nil_r; try reflexivity;
    destruct out; simpl; rewrite ?audio_sent_app; simpl;
      rewrite ?app_nil_r; reflexivity.
Qed.

Lemma forwarded_sublist sig rd sd conn l rest :
  sublist l (produced rest) ->
  sublist (forwarded rd sd conn ++ l) (produced (SendTurn sig rd sd :: rest)).
Proof.
  intros H. destruct rd as [[|b bs]|]; simpl;
    [now apply sublist_cons| |exact H].
  destruct conn as [c|], sd as [|out|]; simpl;
    solve [now apply sublist_skip | now apply sublist_cons].
Qed.

(** C7.  The audio that the forwarding loop puts on the wire is, in order,
    a selection of the chunks it read: each chunk goes out once or not at
    all, and none overtakes another.  A chunk read while there is no
    connection object, or whose send fails, leaves no audio on the wire
    and no trace in the state, which is the same whatever the chunk held.
    A read of zero bytes ends the loop and sends nothing. *)
Theorem audio_forwarded_in_order_or_dropped :
  (forall evs st,
     exists l,
       audio_sent (wire (env (snd (send_audio evs st))))
       = audio_sent (wire (env st)) ++ l /\
       sublist l (produced evs)) /\
  (forall sig b b' sd st,
     b <> [] -> b' <> [] ->
     ws (self st) = None \/ sd <> SendOk ->
     send_audio_body sig (ReadBytes b) sd st
     = send_audio_body sig (ReadBytes b') sd st /\
     audio_sent (wire (env (snd (send_audio_body sig (ReadBytes b) sd st))))
     = audio_sent (wire (env st))) /\
  (forall sig sd rest st,
     running (self st) = true ->
     exists st',
       send_audio (SendTurn sig (ReadBytes []) sd :: rest) st = (Done, st') /\
       wire (env st') = wire (env st)).
Proof.
  split; [|split].
  - induction evs as [|ev evs IH]; intros st.
    + exists []. simpl. rewrite app_nil_r. split; [reflexivity|constructor].
    + destruct ev as [|sig rd sd].
      * destruct (IH (snd (signal_handler st))) as (l & E & S).
        exists l. split; [exact E|exact S].
      * simpl. destruct (running (self st)).
        -- pose proof (send_audio_body_wire sig rd sd st) as W.
           destruct (send_audio_body sig rd sd st) as [[[|]|e] st1];
             simpl in W.
           ++ destruct (IH st1) as (l & E & S).
              exists (forwarded rd sd (ws (self st)) ++ l).
              split; [now rewrite E, W, app_assoc|].
              now apply (forwarded_sublist sig).
           ++ exists (forwarded rd sd (ws (self st)) ++ []).
              split; [now rewrite app_nil_r|].
              apply (forwarded_sublist sig). apply sublist_nil_l.
           ++ exists (forwarded rd sd (ws (self st)) ++ []).
              split; [now rewrite app_nil_r|].
              apply (forwarded_sublist sig). apply sublist_nil_l.
        -- exists []. simpl. rewrite app_nil_r.
           split; [reflexivity|apply sublist_nil_l].
  - intros sig b b' sd st Hb Hb' Hdown. split.
    + destruct b as [|x b]; [congruence|]. destruct b' as [|x' b'];
        [congruence|].
      send_unfold. destruct sig; simpl;
        (destruct (ws (self st)) as [c|]; simpl; [|reflexivity]);
        (destruct sd as [|out|]; simpl; [|reflexivity|reflexivity]);
        destruct Hdown; congruence.
    + rewrite send_audio_body_wire.
      destruct b as [|x b]; [congruence|].
      destruct Hdown as [-> | Hsd]; simpl; [now rewrite app_nil_r|].
      destruct (ws (self st)), sd; simpl; rewrite ?app_nil_r; congruence.
  - intros sig sd rest st Hrun. simpl. rewrite Hrun.
    send_unfold. destruct sig; simpl; eauto.
Qed.

(* ===================================================================== *)
(** ** Failing storage *)
(* ===================================================================== *)





(* ===================================================================== *)
(** ** Mention detection *)
(* ===================================================================== *)

Lemma prefix_occurs p s :
  String.prefix p s = true <-> exists b, s = p +:+ b.
Proof.
  revert s. induction p as [|x p IH]; intros s; simpl.
  - split; [intros _; now exists s|now destruct s].
  - destruct s as [|y s].
    + split; [discriminate|]. intros [b Hb]. discriminate Hb.
    + simpl. destruct (ascii_dec x y) as [->|Hxy].
      * rewrite IH. split; intros [b Hb]; exists b.
        -- now rewrite Hb.
        -- now inversion Hb.
      * split; [discriminate|]. intros [b Hb]. inversion Hb. congruence.
Qed.

Lemma contains_nil p : Py.contains p "" = String.prefix p "" || false.
Proof. reflexivity. Qed.

Lemma contains_cons p c s :
  Py.contains p (String c s) = String.prefix p (String c s) || Py.contains p s.
Proof. reflexivity. Qed.

(** [Py.contains] decides the occurrence of a substring. *)
Lemma contains_occurs p s : Py.contains p s = true <-> occurs p s.
Proof.
  unfold occurs. split.
  - induction s as [|c s IH];
      rewrite ?contains_nil, ?contains_cons, orb_true_iff, prefix_occurs.
    + intros [[b Hb]|H]; [|discriminate]. now exists "", b.
    + intros [[b Hb]|H]; [now exists "", b|].
      destruct (IH H) as (a & b & ->). now exists (String c a), b.
  - intros (a & b & ->). induction a as [|c a IH].
    + change ("" +:+ p +:+ b) with (p +:+ b).
      destruct (p +:+ b) eqn:E;
        rewrite ?contains_nil, ?contains_cons, orb_true_iff; left;
        apply prefix_occurs; exists b; now rewrite E.
    + change (String c a +:+ p +:+ b) with (String c (a +:+ p +:+ b)).
      rewrite contains_cons, IH. apply orb_true_r.
Qed.

(** [find] returns the first element that passes the test. *)
Lemma find_first {A} (f : A -> bool) l x :
  find f l = Some x ->
  exists before after,
    l = before ++ x :: after /\ f x = true /\
    forall y, In y before -> f y = false.
Proof.
  induction l as [|a l IH]; simpl; [discriminate|].
  destruct (f a) eqn:E.
  - intros [= ->]. exists [], l. repeat split; [assumption|]. intros y [].
  - intros H. destruct (IH H) as (before & after & -> & Hx & Hb).
    exists (a :: before), after. repeat split; [assumption|].
    intros y [<-|Hy]; auto.
Qed.

Lemma is_question_occurs text :
  is_question text = true <->
  occurs "?" text \/
  exists p, In p question_phrases /\ occurs p (Py.lower text).
Proof.
  unfold is_question, Py.any_in.
  rewrite orb_true_iff, contains_occurs, existsb_exists.
  split; (intros [H|(p & Hp & Ho)]; [now left|right; exists p; split;
    [assumption|now apply contains_occurs]]).
Qed.

(** C4, as stated, fails on the question phrases: "hey <keyword>" is not
    one of them for every keyword.  With the built-in keywords, a text
    that holds "hey ai" matches the keyword "ai" and is recorded as a
    MENTION. *)
Lemma hey_keyword_is_not_always_a_question :
  occurs ("hey " +:+ "ai") (Py.lower "Hey AI, listen") /\
  MENTION_KEYWORDS world1 = ["claude"; "assistant"; "ai"] /\
  classify "Hey AI, listen" (MENTION_KEYWORDS world1) = Some (MENTION, "ai") /\
  content (fs (snd (_check_mentions meeting0 "10:00:01" "Hey AI, listen"
                      world1)))
          (mentions_path meeting0)
  = "[10:00:01] MENTION: Hey AI, listen" +:+ nl.
Proof.
  split; [|split; [|split]]; try (vm_compute; reflexivity).
  exists "", ", listen". reflexivity.
Qed.

(** C4, amended.  [_check_mentions] takes the first keyword of the list
    that occurs in the text, both in lower case, and writes one record for
    it; no keyword, no record.  The record is a QUESTION exactly when the
    text holds a question mark or its lower-case form holds one of eight
    fixed phrases: "what do you think", "can you", "could you",
    "would you", "do you know", "what about", "hey claude" and
    "hey assistant"; "hey" before another keyword does not count.
    Otherwise the record is a MENTION. *)
Theorem check_mentions_classifies m ts text w :
  let kws := MENTION_KEYWORDS w in
  let hit kw := occurs (Py.lower kw) (Py.lower text) in
  match classify text kws with
  | None =>
      (forall kw, In kw kws -> ~ hit kw) /\
      _check_mentions m ts text w = (Val tt, w)
  | Some (k, kw) =>
      (exists before after,
         kws = before ++ kw :: after /\ hit kw /\
         forall x, In x before -> ~ hit x) /\
      (k = QUESTION <->
       occurs "?" text \/
       exists p, In p question_phrases /\ occurs p (Py.lower text)) /\
      _check_mentions m ts text w
      = (io (Fs.append (mentions_path m) (record_line k ts text)) ;;
         eprint (">>> MENTION DETECTED: " +:+ text)) w
  end /\
  classify "Hey Claude, can you summarize?" ["claude"]
  = Some (QUESTION, "claude") /\
  classify "claude is a nice name" ["claude"] = Some (MENTION, "claude") /\
  classify "no keywords here" ["claude"] = None.
Proof.
  cbv zeta. split; [|repeat split; vm_compute; reflexivity].
  pose proof (check_keywords_classify m ts text (MENTION_KEYWORDS w) w) as R.
  unfold classify in *.
  destruct (find _ (MENTION_KEYWORDS w)) as [kw|] eqn:F.
  - split; [|split].
    + destruct (find_first _ _ _ F) as (before & after & E & Hkw & Hb).
      exists before, after. split; [exact E|]. split.
      * now apply contains_occurs.
      * intros x Hx Hhit. apply contains_occurs in Hhit.
        rewrite (Hb x Hx) in Hhit. discriminate.
    + rewrite <- is_question_occurs.
      destruct (is_question text); split; congruence.
    + exact R.
  - split; [|exact R].
    intros kw Hin Hhit. apply contains_occurs in Hhit.
    pose proof (find_none _ _ F kw Hin) as Hn. simpl in Hn. congruence.
Qed.

(* ===================================================================== *)
(** ** The workspace *)
(* ===================================================================== *)

Lemma length_append (a b : string) :
  String.length (a +:+ b) = (String.length a + String.length b)%nat.
Proof.
  induction a as [|x a IH]; [reflexivity|].
  change (S (String.length (a +:+ b))
          = S (String.length a + String.length b)). now rewrite IH.
Qed.

Lemma path_join_inj a b c : path_join a b = path_join a c -> b = c.
Proof.
  unfold path_join. intros H.
  apply (inj (String.app a)) in H. now apply (inj (String.app "/")) in H.
Qed.

Lemma path_join_longer a b : path_join a b <> a.
Proof.
  unfold path_join. intros H. apply (f_equal String.length) in H.
  rewrite !length_append in H. simpl in H. lia.
Qed.

(** A file of the meeting directory is not the [current] link. *)
Lemma path_join_nested a id b c :
  (String.length c < 1 + String.length b)%nat ->
  path_join (path_join a id) b <> path_join a c.
Proof.
  unfold path_join. intros Hlen H. rewrite !append_assoc in H.
  apply (inj (String.app a)) in H. apply (inj (String.app "/")) in H.
  apply (f_equal String.length) in H. rewrite !length_append in H.
  simpl in H. lia.
Qed.

(** A text without a slash is one component. *)
Lemma split_no_sep s : Py.contains "/" s = false -> split "/" s = [s].
Proof.
  induction s as [|a s IH]; [reflexivity|].
  rewrite contains_cons. intros H. apply orb_false_elim in H as [H1 H2].
  cbn [split]. destruct (Ascii.eqb_spec a "/") as [->|Hne].
  - exfalso. revert H1. cbn. destruct s; discriminate.
  - now rewrite (IH H2).
Qed.

Lemma plain_name_spec id :
  plain_name id = true ->
  id <> "" /\ id <> "." /\ id <> ".." /\ Py.contains "/" id = false.
Proof.
  unfold plain_name. rewrite !andb_true_iff, !negb_true_iff.
  intros ((((H1 & H2) & H3) & H4) & _).
  apply String.eqb_neq in H1, H2, H3. auto.
Qed.

(** For a single name the division of paths is the joining of texts. *)
Lemma path_div_plain a id :
  plain_name id = true -> path_div a id = path_join a id.
Proof.
  intros H. destruct (plain_name_spec id H) as (H1 & H2 & _ & H4).
  unfold path_div, components. rewrite (split_no_sep id H4).
  assert (R : root_of id = None).
  { assert (Hc : forall p, String.prefix (String "/" p) id = false).
    { intros p. destruct (String.prefix (String "/" p) id) eqn:E; [|reflexivity].
      apply prefix_occurs in E as [b ->].
      change (String "/" p +:+ b) with (String "/" (p +:+ b)) in H4.
      rewrite contains_cons in H4. apply orb_false_elim in H4 as [H4 _].
      assert (T : String.prefix "/" (String "/" (p +:+ b)) = true)
        by (apply prefix_occurs; now exists (p +:+ b)).
      rewrite T in H4. discriminate H4. }
    unfold root_of. now rewrite !Hc. }
  rewrite R. cbn [List.filter].
  apply String.eqb_neq in H1, H2. rewrite H1, H2. reflexivity.
Qed.

Lemma init_meeting_plain dir id url :
  plain_name id = true ->
  init_meeting dir id url
  = mkMeeting id url (path_join dir id)
      (path_join (path_join dir id) "transcript.txt")
      (path_join (path_join dir id) "metadata.json")
      (path_join (path_join dir id) "mentions.txt").
Proof. intros H. unfold init_meeting. now rewrite (path_div_plain dir id H). Qed.

(** The paths that [__init__] computes from a single name differ from one
    another, from the meeting directory and from the [current] link. *)
Lemma init_meeting_paths dir id url :
  plain_name id = true ->
  let m := init_meeting dir id url in
  let current := path_join dir "current" in
  transcript_path m <> mentions_path m /\
  transcript_path m <> metadata_path m /\
  mentions_path m <> metadata_path m /\
  transcript_path m <> current /\
  mentions_path m <> current /\
  metadata_path m <> current /\
  transcript_path m <> meeting_dir m /\
  mentions_path m <> meeting_dir m /\
  metadata_path m <> meeting_dir m /\
  (id <> "current" -> meeting_dir m <> current).
Proof.
  intros Hid. cbv zeta. rewrite (init_meeting_plain dir id url Hid).
  cbn [transcript_path mentions_path metadata_path meeting_dir].
  repeat split;
    try (intros H; apply path_join_inj in H; discriminate H);
    try (apply path_join_nested; simpl; lia);
    try apply path_join_longer.
  intros Hne H. apply path_join_inj in H. contradiction.
Qed.

(** An ancestor of a path is shorter than the path. *)
Lemma parents_from_length pre s a :
  a ∈ Fs.parents_from pre s ->
  (String.length a < String.length pre + String.length s)%nat.
Proof.
  revert pre. induction s as [|c s IH]; intros pre; cbn [Fs.parents_from].
  - intros H. now apply elem_of_nil in H.
  - intros [H|H]%elem_of_app.
    + destruct (_ && _).
      * apply list_elem_of_singleton in H. subst a. simpl. lia.
      * now apply elem_of_nil in H.
    + apply IH in H. rewrite length_append in H. simpl in *. lia.
Qed.

Lemma parents_shorter p a :
  a ∈ Fs.parents p -> (String.length a < String.length p)%nat.
Proof. intros H. now apply parents_from_length in H. Qed.

Lemma path_join_length a b :
  String.length (path_join a b) = (String.length a + 1 + String.length b)%nat.
Proof. unfold path_join. rewrite !length_append. simpl. lia. Qed.

Lemma parents_from_app pre a b :
  Fs.parents_from pre (a +:+ b)
  = Fs.parents_from pre a ++ Fs.parents_from (pre +:+ a) b.
Proof.
  revert pre. induction a as [|c a IH]; intros pre.
  - change ("" +:+ b) with b. now rewrite append_nil_r.
  - change (String c a +:+ b) with (String c (a +:+ b)).
    cbn [Fs.parents_from]. rewrite IH, <- app_assoc.
    now rewrite append_assoc.
Qed.

Lemma parents_from_no_sep pre s :
  Py.contains "/" s = false -> Fs.parents_from pre s = [].
Proof.
  revert pre. induction s as [|c s IH]; intros pre; [reflexivity|].
  rewrite contains_cons. intros H. apply orb_false_elim in H as [H1 H2].
  cbn [Fs.parents_from]. rewrite (IH _ H2).
  destruct (Ascii.eqb_spec c "/") as [->|Hne]; [|reflexivity].
  exfalso. revert H1. cbn. destruct s; discriminate.
Qed.

(** The ancestors of [dir/name] are [dir] and the ancestors of [dir]. *)
Lemma parents_of_join dir name a :
  Py.contains "/" name = false ->
  a ∈ Fs.parents (path_join dir name) ->
  (String.length a <= String.length dir)%nat.
Proof.
  intros Hn. unfold Fs.parents, path_join. rewrite parents_from_app.
  intros [H|H]%elem_of_app.
  - apply parents_from_length in H. simpl in H. lia.
  - change ("/" +:+ name) with (String "/" name) in H.
    cbn [Fs.parents_from] in H. rewrite parents_from_no_sep in H by assumption.
    rewrite app_nil_r in H. change ("" +:+ dir) with dir in H.
    destruct (_ && _).
    + apply list_elem_of_singleton in H. subst a. lia.
    + now apply elem_of_nil in H.
Qed.

(** What is longer than the directory of the meetings is not made by the
    [mkdir] of a meeting directory, unless it is that directory. *)
Lemma not_made_by_mkdir dir id b q :
  Py.contains "/" id = false ->
  q = path_join (path_join dir id) b \/ q = path_join dir b ->
  q ∉ Fs.parents (path_join dir id).
Proof.
  intros Hid Hq H%(parents_of_join _ _ _ Hid).
  destruct Hq as [-> | ->]; rewrite !path_join_length in H; lia.
Qed.

Ltac io_unfold :=
  unfold io, Fs.path_exists, Fs.write_text, Fs.dump, Fs.write_file,
    Fs.append, Fs.load, Fs.is_symlink, Fs.unlink, Fs.symlink_to,
    Fs.guard_writable,
    eprint, py_get, bind, ret, raise, try_except, gets, get, modify, zoom
    in *.

(** Reading the participant name changes nothing and cannot fail. *)
Lemma get_participant_name_run w :
  exists name, _get_participant_name w = (Val name, w).
Proof.
  unfold _get_participant_name. io_unfold. simpl. rewrite set_fs_same.
  destruct (orb _ _); [|eauto].
  destruct (files (fs w) !! _) as [[[v|] r]|]; simpl;
    rewrite ?set_fs_same; eauto.
  destruct (Fs.all_json_ws r); simpl; rewrite ?set_fs_same; eauto.
  destruct v; simpl; eauto.
Qed.

(** The metadata, link and log part of the setup writes no file but the
    metadata file and what is at the [current] link. *)
Lemma setup_metadata_and_link_files m now w p :
  p <> metadata_path m ->
  p <> path_join (MEETINGS_DIR w) "current" ->
  files (fs (snd (setup_metadata_and_link m now w))) !! p
  = files (fs w) !! p.
Proof.
  intros Hm Hc. unfold setup_metadata_and_link.
  unfold bind at 1. destruct (get_participant_name_run w) as [name ->].
  io_unfold. simpl.
  repeat match goal with
         | |- context [bool_decide ?P] => destruct (bool_decide P); simpl
         end;
    rewrite ?lookup_delete_ne, ?lookup_insert_ne by congruence;
    reflexivity.
Qed.

Lemma bind_run {S A B} (m : M S A) (f : A -> M S B) s :
  bind m f s = match fst (m s) with
               | Val a => f a (snd (m s))
               | Exn e => (Exn e, snd (m s))
               end.
Proof. unfold bind. now destruct (m s) as [[a|e] s']. Qed.


(** [make_dirs] touches no file and no link, and removes no directory;
    the directories it makes are among the paths it is given. *)
Lemma make_dirs_frame l : forall d,
  let d' := snd (Fs.make_dirs l d) in
  files d' = files d /\ symlinks d' = symlinks d /\
  unwritable d' = unwritable d /\ torn d' = torn d /\
  (forall q, q ∈ dirs d -> q ∈ dirs d') /\
  (forall q, q ∈ dirs d' -> q ∈ dirs d \/ q ∈ l).
Proof.
  induction l as [|a l IH]; intros d; cbn [Fs.make_dirs].
  - cbv zeta. cbn [snd]. auto 10.
  - destruct (Fs.is_dir d a).
    + destruct (IH d) as (A1 & A2 & A3 & A4 & A5 & A6). cbv zeta in *.
      do 5 (split; [assumption|]).
      intros q Hq. apply A6 in Hq as [Hq|Hq]; [auto|].
      right. now apply elem_of_cons; right.
    + destruct (bool_decide (a ∈ unwritable d)).
      * cbv zeta. cbn [snd]. auto 10.
      * destruct (IH (set_dirs ({[a]} ∪ dirs d) d))
          as (A1 & A2 & A3 & A4 & A5 & A6). cbv zeta in *.
        do 4 (split; [assumption|]). split.
        -- intros q Hq. apply A5. cbn [dirs set_dirs].
           now apply elem_of_union_r.
        -- intros q Hq. apply A6 in Hq as [Hq|Hq].
           ++ cbn [dirs set_dirs] in Hq.
              apply elem_of_union in Hq as [Hq|Hq]; [|auto].
              apply elem_of_singleton in Hq. subst q. right.
              now apply elem_of_cons; left.
           ++ right. now apply elem_of_cons; right.
Qed.



(** [mkdir] touches no file and no link, and removes no directory; the
    directories it makes are the path and ancestors of the path. *)
Lemma mkdir_frame p d :
  let d' := snd (Fs.mkdir p d) in
  files d' = files d /\ symlinks d' = symlinks d /\
  unwritable d' = unwritable d /\ torn d' = torn d /\
  (forall q, q ∈ dirs d -> q ∈ dirs d') /\
  (forall q, q ∈ dirs d' -> q ∈ dirs d \/ q = p \/ q ∈ Fs.parents p).
Proof.
  cbv zeta. unfold Fs.mkdir.
  destruct (Fs.is_dir d p); [simpl; auto 10|].
  destruct (_ || _); [simpl; auto 10|].
  destruct (make_dirs_frame (Fs.parents p ++ [p]) d)
    as (A1 & A2 & A3 & A4 & A5 & A6). cbv zeta in *.
  do 5 (split; [assumption|]).
  intros q Hq. apply A6 in Hq as [Hq|Hq]; [auto|].
  apply elem_of_app in Hq as [Hq|Hq]; [auto|].
  apply list_elem_of_singleton in Hq. auto.
Qed.


Lemma write_file_run p f d :
  Fs.write_file p f d =
  if bool_decide (p ∈ unwritable d)
  then (Exn (OSError p),
        if bool_decide (p ∈ torn d)
        then set_files (<[p := mkFile None ""]> (files d)) d else d)
  else (Val tt, set_files (<[p := f]> (files d)) d).
Proof. reflexivity. Qed.

(** [io (Fs.write_text p s)] writes at [p] only; it returns exactly when
    [p] can be written, and has then left [s] at [p]. *)
Lemma io_write_text_files p s w :
  let w' := snd (io (Fs.write_text p s) w) in
  MEETINGS_DIR w' = MEETINGS_DIR w /\
  dirs (fs w') = dirs (fs w) /\
  symlinks (fs w') = symlinks (fs w) /\
  unwritable (fs w') = unwritable (fs w) /\
  (forall q, q <> p -> files (fs w') !! q = files (fs w) !! q) /\
  (fst (io (Fs.write_text p s) w) = Val tt ->
   files (fs w') !! p = Some (mkFile None s)) /\
  (p ∉ unwritable (fs w) -> fst (io (Fs.write_text p s) w) = Val tt).
Proof.
  cbv zeta. rewrite io_run. unfold Fs.write_text. rewrite write_file_run.
  destruct (bool_decide (p ∈ unwritable (fs w))) eqn:Hu; cbn [fst snd].
  - apply bool_decide_eq_true_1 in Hu.
    destruct (bool_decide (p ∈ torn (fs w))); simpl;
      (do 4 (split; [reflexivity|])); (split; [|split]);
      try (intros H; discriminate H); try (intros H; contradiction); auto.
    intros q Hq. now rewrite lookup_insert_ne.
  - simpl. do 4 (split; [reflexivity|]). split; [|split]; auto.
    + intros q Hq. now rewrite lookup_insert_ne.
    + intros _. now rewrite lookup_insert_eq.
Qed.

(** [init_file] leaves what is at [p] alone; where nothing is, it creates
    an empty file or fails. *)
Lemma init_file_run p w :
  let w' := snd (MeetingTranscriberBatch.init_file p w) in
  MEETINGS_DIR w' = MEETINGS_DIR w /\
  dirs (fs w') = dirs (fs w) /\
  symlinks (fs w') = symlinks (fs w) /\
  unwritable (fs w') = unwritable (fs w) /\
  (forall q, q <> p -> files (fs w') !! q = files (fs w) !! q) /\
  (forall f, files (fs w) !! p = Some f -> files (fs w') !! p = Some f) /\
  (fst (MeetingTranscriberBatch.init_file p w) = Val tt ->
   files (fs w) !! p = None -> p ∉ dirs (fs w) ->
   files (fs w') !! p = Some (mkFile None "")) /\
  (p ∉ unwritable (fs w) ->
   fst (MeetingTranscriberBatch.init_file p w) = Val tt).
Proof.
  cbv zeta. unfold MeetingTranscriberBatch.init_file. rewrite bind_run, io_run.
  unfold Fs.path_exists, gets. cbn [fst snd]. rewrite set_fs_same.
  destruct (files (fs w) !! p) as [f|] eqn:Hf.
  - rewrite (bool_decide_eq_true_2 (is_Some (Some f))) by eauto. simpl.
    rewrite Hf. repeat split; auto. intros _ H; discriminate H.
  - rewrite (bool_decide_eq_false_2 (is_Some None)) by (intros [x Hx]; discriminate Hx).
    simpl.
    destruct (bool_decide (p ∈ dirs (fs w))) eqn:Hd; simpl.
    + apply bool_decide_eq_true_1 in Hd.
      rewrite Hf. repeat split; auto; try (intros ? H; discriminate H).
      intros _ _ Hn. contradiction.
    + destruct (io_write_text_files p "" w)
        as (A1 & A2 & A3 & A4 & A5 & A6 & A7).
      repeat split; auto. intros f H. discriminate H.
Qed.

(** The streaming setup, step by step: the state after the directory and
    the two files. *)
Lemma streaming_setup_steps m now w :
  let w1 := snd (io (Fs.mkdir (meeting_dir m)) w) in
  let w2 := snd (io (Fs.write_text (transcript_path m) "") w1) in
  let w3 := snd (io (Fs.write_text (mentions_path m) "") w2) in
  MeetingTranscriber.setup_meeting_directory m now w =
  match fst (Fs.mkdir (meeting_dir m) (fs w)) with
  | Exn e => (Exn e, w1)
  | Val _ =>
      match fst (io (Fs.write_text (transcript_path m) "") w1) with
      | Exn e => (Exn e, w2)
      | Val _ =>
          match fst (io (Fs.write_text (mentions_path m) "") w2) with
          | Exn e => (Exn e, w3)
          | Val _ => setup_metadata_and_link m now w3
          end
      end
  end.
Proof.
  cbv zeta. unfold MeetingTranscriber.setup_meeting_directory.
  rewrite bind_run. rewrite (io_run (Fs.mkdir (meeting_dir m))) at 1.
  cbn [fst]. destruct (fst (Fs.mkdir (meeting_dir m) (fs w))); [|reflexivity].
  rewrite bind_run.
  destruct (fst (io (Fs.write_text (transcript_path m) "") _));
    [|reflexivity].
  rewrite bind_run.
  now destruct (fst (io (Fs.write_text (mentions_path m) "") _)).
Qed.

(** The batch setup, likewise. *)
Lemma batch_setup_steps m now w :
  let w1 := snd (io (Fs.mkdir (meeting_dir m)) w) in
  let w2 := snd (MeetingTranscriberBatch.init_file (transcript_path m) w1) in
  let w3 := snd (MeetingTranscriberBatch.init_file (mentions_path m) w2) in
  MeetingTranscriberBatch.setup_meeting_directory m now w =
  match fst (Fs.mkdir (meeting_dir m) (fs w)) with
  | Exn e => (Exn e, w1)
  | Val _ =>
      match fst (MeetingTranscriberBatch.init_file (transcript_path m) w1) with
      | Exn e => (Exn e, w2)
      | Val _ =>
          match fst (MeetingTranscriberBatch.init_file (mentions_path m) w2)
          with
          | Exn e => (Exn e, w3)
          | Val _ => setup_metadata_and_link m now w3
          end
      end
  end.
Proof.
  cbv zeta. unfold MeetingTranscriberBatch.setup_meeting_directory.
  rewrite bind_run. rewrite (io_run (Fs.mkdir (meeting_dir m))) at 1.
  cbn [fst]. destruct (fst (Fs.mkdir (meeting_dir m) (fs w))); [|reflexivity].
  rewrite bind_run.
  destruct (fst (MeetingTranscriberBatch.init_file (transcript_path m) _));
    [|reflexivity].
  rewrite bind_run.
  now destruct (fst (MeetingTranscriberBatch.init_file (mentions_path m) _)).
Qed.

(** What [io (Fs.mkdir p)] leaves of the world. *)
Lemma io_mkdir_files p w :
  let w' := snd (io (Fs.mkdir p) w) in
  files (fs w') = files (fs w) /\
  MEETINGS_DIR w' = MEETINGS_DIR w /\
  symlinks (fs w') = symlinks (fs w) /\
  unwritable (fs w') = unwritable (fs w) /\
  (forall q, q ∈ dirs (fs w) -> q ∈ dirs (fs w')) /\
  (forall q, q ∈ dirs (fs w') -> q ∈ dirs (fs w) \/ q = p \/ q ∈ Fs.parents p).
Proof.
  cbv zeta. rewrite io_run. cbn [snd].
  destruct (mkdir_frame p (fs w)) as (A1 & A2 & A3 & _ & A5 & A6).
  cbv zeta in *. simpl. auto 10.
Qed.

(** C8.  For a meeting id that is a single name other than "current" and
    a meeting directory that is not a link.  The setup of the streaming
    client empties the transcript and the mentions file, whatever they
    held: both are empty when the setup returns, and each is empty from
    its write on, also when a later step of the setup raises.  The setup
    of the batch client leaves a transcript or mentions file that exists
    as it is, whether or not the setup returns, and creates as an empty
    file the one that did not exist. *)
Theorem setup_truncates_streaming_and_preserves_batch w id url now :
  let m := init_meeting (MEETINGS_DIR w) id url in
  let streamed := MeetingTranscriber.setup_meeting_directory m now w in
  let batched := MeetingTranscriberBatch.setup_meeting_directory m now w in
  let empty := Some (mkFile None "") in
  plain_name id = true ->
  id <> "current" ->
  symlinks (fs w) !! meeting_dir m = None ->
  (fst streamed = Val tt ->
   files (fs (snd streamed)) !! transcript_path m = empty /\
   files (fs (snd streamed)) !! mentions_path m = empty) /\
  (fst (Fs.mkdir (meeting_dir m) (fs w)) = Val tt ->
   transcript_path m ∉ unwritable (fs w) ->
   files (fs (snd streamed)) !! transcript_path m = empty /\
   (mentions_path m ∉ unwritable (fs w) ->
    files (fs (snd streamed)) !! mentions_path m = empty)) /\
  (forall p f,
     p = transcript_path m \/ p = mentions_path m ->
     files (fs w) !! p = Some f ->
     files (fs (snd batched)) !! p = Some f) /\
  (fst (Fs.mkdir (meeting_dir m) (fs w)) = Val tt ->
   transcript_path m ∉ unwritable (fs w) ->
   mentions_path m ∉ unwritable (fs w) ->
   forall p,
     p = transcript_path m \/ p = mentions_path m ->
     files (fs w) !! p = None -> p ∉ dirs (fs w) ->
     files (fs (snd batched)) !! p = empty) /\
  (fst batched = Val tt ->
   forall p,
     p = transcript_path m \/ p = mentions_path m ->
     files (fs w) !! p = None -> p ∉ dirs (fs w) ->
     files (fs (snd batched)) !! p = empty).
Proof.
  intros m streamed batched empty Hid Hcur Hlink.
  destruct (init_meeting_paths (MEETINGS_DIR w) id url Hid)
    as (P1 & P2 & P3 & P4 & P5 & _ & P6 & P7 & _).
  assert (Pm : forall q, q = transcript_path m \/ q = mentions_path m ->
                         q <> meeting_dir m /\
                         q ∉ Fs.parents (meeting_dir m)).
  { destruct (plain_name_spec id Hid) as (_ & _ & _ & Hs).
    subst m. rewrite (init_meeting_plain _ _ _ Hid).
    cbn [transcript_path mentions_path meeting_dir].
    intros q Hq. split.
    - destruct Hq as [-> | ->]; apply path_join_longer.
    - destruct Hq as [-> | ->];
        apply (not_made_by_mkdir _ _ _ _ Hs (or_introl eq_refl)). }
  fold m in P1, P2, P3, P4, P5, P6, P7.
  subst streamed batched. cbv zeta.
  rewrite streaming_setup_steps, batch_setup_steps.
  clearbody m. clear Hid Hcur Hlink.
  destruct (io_mkdir_files (meeting_dir m) w) as (D1 & D2 & D3 & D4 & D5 & D6).
  set (w1 := snd (io (Fs.mkdir (meeting_dir m)) w)) in *.
  (* streaming *)
  destruct (io_write_text_files (transcript_path m) "" w1)
    as (T1 & T2 & T3 & T4 & T5 & T6 & T7).
  set (s2 := snd (io (Fs.write_text (transcript_path m) "") w1)) in *.
  destruct (io_write_text_files (mentions_path m) "" s2)
    as (M1 & M2 & M3 & M4 & M5 & M6 & M7).
  set (s3 := snd (io (Fs.write_text (mentions_path m) "") s2)) in *.
  (* batch *)
  destruct (init_file_run (transcript_path m) w1)
    as (bT1 & bT2 & bT3 & bT4 & bT5 & bT6 & bT7 & bT8).
  set (b2 := snd (MeetingTranscriberBatch.init_file (transcript_path m) w1))
    in *.
  destruct (init_file_run (mentions_path m) b2)
    as (bM1 & bM2 & bM3 & bM4 & bM5 & bM6 & bM7 & bM8).
  set (b3 := snd (MeetingTranscriberBatch.init_file (mentions_path m) b2))
    in *.
  assert (S3 : files (fs (snd (setup_metadata_and_link m now s3)))
               !! transcript_path m = files (fs s3) !! transcript_path m /\
               files (fs (snd (setup_metadata_and_link m now s3)))
               !! mentions_path m = files (fs s3) !! mentions_path m).
  { split; apply setup_metadata_and_link_files; rewrite ?M1, ?T1, ?D2;
      congruence. }
  assert (B3 : forall p, p = transcript_path m \/ p = mentions_path m ->
               files (fs (snd (setup_metadata_and_link m now b3))) !! p
               = files (fs b3) !! p).
  { intros p Hp. apply setup_metadata_and_link_files;
      rewrite ?bM1, ?bT1, ?D2; destruct Hp as [-> | ->]; congruence. }
  assert (Hd1 : forall q, q = transcript_path m \/ q = mentions_path m ->
                          q ∉ dirs (fs w) -> q ∉ dirs (fs w1)).
  { intros q Hq Hn H. destruct (Pm q Hq) as [Q1 Q2].
    apply D6 in H as [H|[H|H]]; contradiction. }
  destruct S3 as [S3t S3m].
  split; [|split; [|split; [|split]]].
  - destruct (fst (Fs.mkdir (meeting_dir m) (fs w))) as [[]|e];
      [|cbn [fst]; intros H; discriminate H].
    destruct (fst (io (Fs.write_text (transcript_path m) "") w1)) as [[]|e];
      [|cbn [fst]; intros H; discriminate H].
    destruct (fst (io (Fs.write_text (mentions_path m) "") s2)) as [[]|e];
      [|cbn [fst]; intros H; discriminate H].
    intros _. rewrite S3t, S3m, M5 by congruence.
    split; [now apply T6|now apply M6].
  - intros -> Ht. rewrite (T7 ltac:(now rewrite D4)).
    specialize (T6 (T7 ltac:(now rewrite D4))).
    assert (T2' : files (fs s3) !! transcript_path m = empty)
      by (now rewrite M5 by congruence).
    destruct (fst (io (Fs.write_text (mentions_path m) "") s2)) as [[]|e] eqn:E.
    + rewrite S3t, S3m. split; [exact T2'|]. intros _. now apply M6.
    + cbn [snd]. split; [exact T2'|]. intros Hm.
      assert (Hm' : mentions_path m ∉ unwritable (fs s2))
        by (now rewrite T4, D4).
      specialize (M7 Hm'). discriminate M7.
  - intros p f Hp Hf.
    assert (F1 : files (fs w1) !! p = Some f) by now rewrite D1.
    destruct (fst (Fs.mkdir (meeting_dir m) (fs w))); [|exact F1].
    assert (F2 : files (fs b2) !! p = Some f).
    { destruct Hp as [-> | ->]; [now apply bT6|].
      rewrite bT5 by congruence. exact F1. }
    destruct (fst (MeetingTranscriberBatch.init_file (transcript_path m) w1));
      [|exact F2].
    assert (F3 : files (fs b3) !! p = Some f).
    { destruct Hp as [-> | ->]; [|now apply bM6].
      rewrite bM5 by congruence. exact F2. }
    destruct (fst (MeetingTranscriberBatch.init_file (mentions_path m) b2));
      [|exact F3].
    rewrite B3 by assumption. exact F3.
  - intros -> Ht Hm p Hp Hf Hd.
    assert (E2 : fst (MeetingTranscriberBatch.init_file (transcript_path m) w1)
                 = Val tt) by (apply bT8; now rewrite D4).
    assert (E3 : fst (MeetingTranscriberBatch.init_file (mentions_path m) b2)
                 = Val tt) by (apply bM8; now rewrite bT4, D4).
    rewrite E2, E3, B3 by assumption.
    destruct Hp as [-> | ->].
    + rewrite bM5 by congruence. apply bT7; [exact E2| |].
      * now rewrite D1.
      * apply Hd1; auto.
    + apply bM7; [exact E3| |].
      * rewrite bT5 by congruence. now rewrite D1.
      * rewrite bT2. apply Hd1; auto.
  - destruct (fst (Fs.mkdir (meeting_dir m) (fs w))) as [[]|e];
      [|cbn [fst]; intros H; discriminate H].
    destruct (fst (MeetingTranscriberBatch.init_file (transcript_path m) w1))
      as [[]|e] eqn:E2; [|cbn [fst]; intros H; discriminate H].
    destruct (fst (MeetingTranscriberBatch.init_file (mentions_path m) b2))
      as [[]|e] eqn:E3; [|cbn [fst]; intros H; discriminate H].
    intros _ p Hp Hf Hd. rewrite B3 by assumption.
    destruct Hp as [-> | ->].
    + rewrite bM5 by congruence. apply bT7; [reflexivity| |].
      * now rewrite D1.
      * apply Hd1; auto.
    + apply bM7; [reflexivity| |].
      * rewrite bT5 by congruence. now rewrite D1.
      * rewrite bT2. apply Hd1; auto.
Qed.

Lemma setup_truncates_streaming_and_preserves_batch_witness :
  files (fs (snd (MeetingTranscriber.setup_meeting_directory meeting0
                    "2026-01-06T09:00:00Z" world_used)))
    !! transcript_path meeting0 = Some (mkFile None "") /\
  files (fs (snd (MeetingTranscriberBatch.setup_meeting_directory meeting0
                    "2026-01-06T09:00:00Z" world_used)))
    !! transcript_path meeting0
  = Some (mkFile None ("[10:00:01] good morning" +:+ nl)).
Proof.
  pose proof (setup_truncates_streaming_and_preserves_batch world_used
                "abc-defg-hij" "https://meet.google.com/abc-defg-hij"
                "2026-01-06T09:00:00Z") as H.
  cbv zeta in H.
  refine ((fun H' =>
             conj (proj1 (proj1 (proj2 H') _ _))
                  (proj1 (proj2 (proj2 H')) _ _ (or_introl eq_refl) _))
            (H _ _ _)).
  - vm_compute. reflexivity.
  - refine (bool_decide_unpack _ _). vm_compute. exact I.
  - vm_compute. reflexivity.
  - reflexivity.
  - discriminate.
  - vm_compute. reflexivity.
Defined.

(* ===================================================================== *)
(** ** Closing the metadata: errors and what is kept *)
(* ===================================================================== *)

Lemma dump_run p v d :
  Fs.dump p v d =
  if bool_decide (p ∈ unwritable d)
  then (Exn (OSError p),
        if bool_decide (p ∈ torn d)
        then set_files (<[p := mkFile None ""]> (files d)) d else d)
  else (Val tt, set_files (<[p := mkFile (Some v) ""]> (files d)) d).
Proof. reflexivity. Qed.

(** The run of [update_metadata_ended], case by case on what is at the
    metadata path. *)
Lemma update_metadata_ended_run m now w :
  let p := metadata_path m in
  update_metadata_ended m now w =
  (Val tt,
   match files (fs w) !! p with
   | None =>
       if bool_decide (p ∈ dirs (fs w)) then reported (OSError p) w else w
   | Some (mkFile None _) => reported JSONDecodeError w
   | Some (mkFile (Some v) r) =>
       if Fs.all_json_ws r then
         match v with
         | JDict d =>
             if bool_decide (p ∈ unwritable (fs w)) then
               reported (OSError p)
                 (if bool_decide (p ∈ torn (fs w))
                  then set_fs (set_files (<[p := mkFile None ""]>
                                            (files (fs w))) (fs w)) w
                  else w)
             else set_fs (set_files (<[p := mkFile (Some (ended now d)) ""]>
                                       (files (fs w))) (fs w)) w
         | _ => reported TypeError w
         end
       else reported JSONDecodeError w
   end).
Proof.
  cbv zeta. unfold update_metadata_ended. rewrite bind_run, io_run.
  unfold Fs.path_exists, gets. cbn [fst snd]. rewrite set_fs_same.
  unfold try_except. 
  destruct (files (fs w) !! metadata_path m) as [[[v|] r]|] eqn:Hf.
  - rewrite (bool_decide_eq_true_2 (is_Some (Some _))) by eauto.
    cbn [orb]. rewrite bind_run, io_run. unfold Fs.load. rewrite Hf.
    destruct (Fs.all_json_ws r); cbn [fst snd]; rewrite set_fs_same;
      [|reflexivity].
    destruct v; try reflexivity.
    unfold py_setitem, ret, bind. cbv beta iota.
    rewrite io_run, dump_run.
    destruct (bool_decide (metadata_path m ∈ unwritable (fs w)));
      [|reflexivity].
    destruct (bool_decide (metadata_path m ∈ torn (fs w))); cbn [fst snd];
      rewrite ?set_fs_same; reflexivity.
  - rewrite (bool_decide_eq_true_2 (is_Some (Some _))) by eauto.
    cbn [orb]. rewrite bind_run, io_run. unfold Fs.load. rewrite Hf.
    cbn [fst snd]. rewrite set_fs_same. reflexivity.
  - rewrite (bool_decide_eq_false_2 (is_Some None))
      by (intros [x Hx]; discriminate Hx).
    cbn [orb]. destruct (bool_decide (metadata_path m ∈ dirs (fs w)));
      [|reflexivity].
    rewrite bind_run, io_run. unfold Fs.load. rewrite Hf.
    cbn [fst snd]. rewrite set_fs_same. reflexivity.
Qed.

(** X1.  [update_metadata_ended] never raises, and says on the log what
    it could not do.  Where nothing is at the metadata path it changes
    nothing and logs nothing.  A directory there, a file that is not JSON
    and a JSON document that is not an object are each reported with one
    line, "Error updating metadata: ..." with the exception, and the file
    system is left as it was.  An object that cannot be written back is
    reported in the same way; the file is then as it was, or empty when
    the write failed after the file had been opened.  An object that can
    be written is updated and nothing is logged.  No other file, no link
    and no directory is touched in any case. *)
Theorem update_metadata_ended_never_raises m now w :
  let p := metadata_path m in
  let w' := snd (update_metadata_ended m now w) in
  fst (update_metadata_ended m now w) = Val tt /\
  (forall q, q <> p -> files (fs w') !! q = files (fs w) !! q) /\
  symlinks (fs w') = symlinks (fs w) /\
  dirs (fs w') = dirs (fs w) /\
  (files (fs w) !! p = None -> p ∉ dirs (fs w) -> w' = w) /\
  (files (fs w) !! p = None -> p ∈ dirs (fs w) ->
   w' = reported (OSError p) w) /\
  (forall v r,
     files (fs w) !! p = Some (mkFile v r) ->
     v = None \/ Fs.all_json_ws r = false ->
     w' = reported JSONDecodeError w) /\
  (forall v r,
     files (fs w) !! p = Some (mkFile (Some v) r) ->
     Fs.all_json_ws r = true ->
     (forall d, v <> JDict d) ->
     w' = reported TypeError w) /\
  (forall d r,
     files (fs w) !! p = Some (mkFile (Some (JDict d)) r) ->
     Fs.all_json_ws r = true ->
     (p ∈ unwritable (fs w) ->
      stderr w'
      = stderr w ++ ["Error updating metadata: " +:+ exn_str (OSError p)] /\
      files (fs w') !! p
      = Some (if bool_decide (p ∈ torn (fs w))
              then mkFile None "" else mkFile (Some (JDict d)) r)) /\
     (p ∉ unwritable (fs w) ->
      stderr w' = stderr w /\
      files (fs w') !! p = Some (mkFile (Some (ended now d)) ""))).
Proof.
  cbv zeta. rewrite update_metadata_ended_run. cbv zeta. cbn [fst snd].
  set (p := metadata_path m).
  split; [reflexivity|]. split; [|split; [|split]].
  - intros q Hq.
    destruct (files (fs w) !! p) as [[[v|] r]|]; try reflexivity.
    + destruct (Fs.all_json_ws r); [|reflexivity].
      destruct v; try reflexivity.
      destruct (bool_decide (p ∈ unwritable (fs w)));
        [destruct (bool_decide (p ∈ torn (fs w)))|]; simpl;
        rewrite ?lookup_insert_ne by congruence; reflexivity.
    + now destruct (bool_decide (p ∈ dirs (fs w))).
  - destruct (files (fs w) !! p) as [[[v|] r]|]; try reflexivity.
    + destruct (Fs.all_json_ws r); [|reflexivity].
      destruct v; try reflexivity.
      destruct (bool_decide (p ∈ unwritable (fs w)));
        [destruct (bool_decide (p ∈ torn (fs w)))|]; reflexivity.
    + now destruct (bool_decide (p ∈ dirs (fs w))).
  - destruct (files (fs w) !! p) as [[[v|] r]|]; try reflexivity.
    + destruct (Fs.all_json_ws r); [|reflexivity].
      destruct v; try reflexivity.
      destruct (bool_decide (p ∈ unwritable (fs w)));
        [destruct (bool_decide (p ∈ torn (fs w)))|]; reflexivity.
    + now destruct (bool_decide (p ∈ dirs (fs w))).
  - split; [|split; [|split; [|split]]].
    + intros -> Hd. now rewrite (bool_decide_eq_false_2 _ Hd).
    + intros -> Hd. now rewrite (bool_decide_eq_true_2 _ Hd).
    + intros v r -> [-> | Hws]; [reflexivity|].
      destruct v; now rewrite ?Hws.
    + intros v r -> -> Hv. destruct v; try reflexivity.
      now contradiction (Hv d).
    + intros d r Hf Hws. rewrite Hf, Hws. split; intros Hu.
      * rewrite (bool_decide_eq_true_2 _ Hu).
        destruct (bool_decide (p ∈ torn (fs w))); simpl;
          rewrite ?lookup_insert_eq; auto.
      * rewrite (bool_decide_eq_false_2 _ Hu). simpl.
        now rewrite lookup_insert_eq.
Qed.

Lemma dict_set_keys k v d :
  dict_get k d <> None -> map fst (dict_set k v d) = map fst d.
Proof.
  induction d as [|[k' v'] d IH]; simpl; [congruence|].
  destruct (String.eqb_spec k k') as [->|Hne]; simpl.
  - reflexivity.
  - intros H. now rewrite IH.
Qed.

(** X2.  On a metadata file that holds an object, [update_metadata_ended]
    changes the values of [ended_at] and [status] and nothing else: every
    other key keeps its value, the keys written by the setup keep their
    order, and no other file changes. *)
Theorem update_metadata_ended_keeps_other_fields m now w d r :
  files (fs w) !! metadata_path m = Some (mkFile (Some (JDict d)) r) ->
  Fs.all_json_ws r = true ->
  metadata_path m ∉ unwritable (fs w) ->
  let w' := snd (update_metadata_ended m now w) in
  (forall k, k <> "ended_at" -> k <> "status" ->
             field w' (metadata_path m) k = dict_get k d) /\
  (dict_get "ended_at" d <> None -> dict_get "status" d <> None ->
   exists d', document (fs w') (metadata_path m) = Some (JDict d') /\
              map fst d' = map fst d) /\
  (forall p, p <> metadata_path m ->
             files (fs w') !! p = files (fs w) !! p).
Proof.
  intros Hfile Hws Hwr. cbv zeta.
  rewrite (update_metadata_ended_object m now w d r) by assumption.
  cbn [snd]. split; [|split].
  - intros k H1 H2. unfold ended. rewrite field_inserted.
    now rewrite !dict_get_set_ne.
  - intros H1 H2. eexists. split.
    + unfold document. simpl. rewrite lookup_insert_eq. reflexivity.
    + rewrite dict_set_keys.
      * now apply dict_set_keys.
      * rewrite dict_get_set_ne by discriminate. exact H2.
  - intros p Hp. simpl. now rewrite lookup_insert_ne.
Qed.

Lemma update_metadata_ended_keeps_other_fields_witness :
  field (snd (update_metadata_ended meeting0 "2026-01-05T11:00:00Z" world1))
        (metadata_path meeting0) "started_at"
  = Some (JStr "2026-01-05T10:00:00Z").
Proof.
  refine (proj1 (update_metadata_ended_keeps_other_fields meeting0
            "2026-01-05T11:00:00Z" world1
            [ ("meeting_id", JStr "abc-defg-hij");
              ("url", JStr "https://meet.google.com/abc-defg-hij");
              ("started_at", JStr "2026-01-05T10:00:00Z");
              ("ended_at", JNull);
              ("participant_name", JStr "Claude Assistant");
              ("status", JStr "active") ] "" _ _ _) "started_at" _ _).
  - vm_compute. reflexivity.
  - reflexivity.
  - refine (bool_decide_unpack _ _). vm_compute. exact I.
  - discriminate.
  - discriminate.
Defined.

(* ===================================================================== *)
(** ** The workspace after the setup *)
(* ===================================================================== *)

Lemma metadata_not_current dir id url :
  plain_name id = true ->
  metadata_path (init_meeting dir id url) <> path_join dir "current".
Proof.
  intros H. now destruct (init_meeting_paths dir id url H)
    as (_ & _ & _ & _ & _ & P & _).
Qed.

Lemma meeting_dir_not_current dir id url :
  plain_name id = true ->
  id <> "current" ->
  meeting_dir (init_meeting dir id url) <> path_join dir "current".
Proof.
  intros H. destruct (init_meeting_paths dir id url H)
    as (_ & _ & _ & _ & _ & _ & _ & _ & _ & P). exact P.
Qed.


(** What the metadata, link and log part of the setup has done when it
    returns. *)
Lemma setup_metadata_and_link_success m now w :
  metadata_path m <> path_join (MEETINGS_DIR w) "current" ->
  fst (setup_metadata_and_link m now w) = Val tt ->
  let w' := snd (setup_metadata_and_link m now w) in
  exists name,
    _get_participant_name w = (Val name, w) /\
    files (fs w') !! metadata_path m
    = Some (mkFile (Some (new_metadata m now name)) "") /\
    symlinks (fs w') !! path_join (MEETINGS_DIR w) "current"
    = Some (meeting_dir m) /\
    dirs (fs w') = dirs (fs w) /\
    stderr w' = stderr w ++ ["Meeting directory: " +:+ meeting_dir m].
Proof.
  intros Hne. cbv zeta. unfold setup_metadata_and_link.
  destruct (get_participant_name_run w) as [name E].
  rewrite bind_run, E. cbn [fst snd].
  intros Hs. exists name. split; [reflexivity|].
  revert Hs. io_unfold. simpl.
  repeat match goal with
         | |- context [bool_decide ?P] => destruct (bool_decide P); simpl
         end;
    try (intros H; discriminate H); intros _;
    rewrite ?lookup_delete_ne, ?lookup_insert_eq by congruence; auto.
Qed.

Lemma io_keeps {A} (m : M filesystem A) w :
  MEETINGS_DIR (snd (io m w)) = MEETINGS_DIR w /\
  HOME (snd (io m w)) = HOME w /\
  stderr (snd (io m w)) = stderr w.
Proof. rewrite io_run. auto. Qed.

Lemma init_file_log p w :
  stderr (snd (MeetingTranscriberBatch.init_file p w)) = stderr w.
Proof.
  unfold MeetingTranscriberBatch.init_file. rewrite bind_run, io_run.
  unfold Fs.path_exists, gets. cbn [fst snd]. rewrite set_fs_same.
  destruct (negb _); [|reflexivity]. apply (io_keeps _ w).
Qed.


(** The state in which either setup writes the metadata, when it gets
    that far. *)
Lemma setup_reaches_metadata m now w setup :
  setup = MeetingTranscriber.setup_meeting_directory \/
  setup = MeetingTranscriberBatch.setup_meeting_directory ->
  fst (setup m now w) = Val tt ->
  exists w3,
    setup m now w = setup_metadata_and_link m now w3 /\
    fst (Fs.mkdir (meeting_dir m) (fs w)) = Val tt /\
    MEETINGS_DIR w3 = MEETINGS_DIR w /\
    stderr w3 = stderr w /\
    dirs (fs w3) = dirs (snd (Fs.mkdir (meeting_dir m) (fs w))).
Proof.
  intros [-> | ->].
  - rewrite streaming_setup_steps.
    destruct (fst (Fs.mkdir (meeting_dir m) (fs w))) as [[]|e];
      [|cbn [fst]; intros H; discriminate H].
    destruct (io_keeps (Fs.mkdir (meeting_dir m)) w) as (D1 & _ & D2).
    set (w1 := snd (io (Fs.mkdir (meeting_dir m)) w)) in *.
    destruct (io_write_text_files (transcript_path m) "" w1)
      as (T1 & T2 & _).
    destruct (io_keeps (Fs.write_text (transcript_path m) "") w1)
      as (_ & _ & T3).
    set (w2 := snd (io (Fs.write_text (transcript_path m) "") w1)) in *.
    destruct (io_write_text_files (mentions_path m) "" w2)
      as (M1 & M2 & _).
    destruct (io_keeps (Fs.write_text (mentions_path m) "") w2)
      as (_ & _ & M3).
    set (w3 := snd (io (Fs.write_text (mentions_path m) "") w2)) in *.
    destruct (fst (io (Fs.write_text (transcript_path m) "") w1)) as [[]|e];
      [|cbn [fst]; intros H; discriminate H].
    destruct (fst (io (Fs.write_text (mentions_path m) "") w2)) as [[]|e];
      [|cbn [fst]; intros H; discriminate H].
    intros _. exists w3. split; [reflexivity|]. split; [reflexivity|].
    split; [congruence|]. split; [congruence|].
    rewrite M2, T2. subst w1. now rewrite io_run.
  - rewrite batch_setup_steps.
    destruct (fst (Fs.mkdir (meeting_dir m) (fs w))) as [[]|e];
      [|cbn [fst]; intros H; discriminate H].
    destruct (io_keeps (Fs.mkdir (meeting_dir m)) w) as (D1 & _ & D2).
    set (w1 := snd (io (Fs.mkdir (meeting_dir m)) w)) in *.
    destruct (init_file_run (transcript_path m) w1) as (T1 & T2 & _).
    pose proof (init_file_log (transcript_path m) w1) as T3.
    set (w2 := snd (MeetingTranscriberBatch.init_file (transcript_path m) w1))
      in *.
    destruct (init_file_run (mentions_path m) w2) as (M1 & M2 & _).
    pose proof (init_file_log (mentions_path m) w2) as M3.
    set (w3 := snd (MeetingTranscriberBatch.init_file (mentions_path m) w2))
      in *.
    destruct (fst (MeetingTranscriberBatch.init_file (transcript_path m) w1))
      as [[]|e]; [|cbn [fst]; intros H; discriminate H].
    destruct (fst (MeetingTranscriberBatch.init_file (mentions_path m) w2))
      as [[]|e]; [|cbn [fst]; intros H; discriminate H].
    intros _. exists w3. split; [reflexivity|]. split; [reflexivity|].
    split; [congruence|]. split; [congruence|].
    rewrite M2, T2. subst w1. now rewrite io_run.
Qed.










(** X5.  [_get_participant_name] reads and never fails or writes: it
    returns the value of [participant_name] when the configuration file
    holds a JSON object with that key, whatever the type of the value, and
    "Claude Assistant" when the file is missing, is not JSON, is not an
    object or has no such key. *)
Theorem get_participant_name_reads_config w :
  let p := path_join (HOME w) ".meeting-recorder.json" in
  exists name,
    _get_participant_name w = (Val name, w) /\
    name = match files (fs w) !! p with
           | Some (mkFile (Some (JDict d)) r) =>
               if Fs.all_json_ws r
               then default default_participant
                      (dict_get "participant_name" d)
               else default_participant
           | _ => default_participant
           end.
Proof.
  cbv zeta. unfold _get_participant_name. io_unfold. simpl.
  rewrite set_fs_same.
  destruct (files (fs w) !! _) as [[[v|] r]|] eqn:Hf; simpl;
    rewrite ?Hf; simpl.
  - destruct (Fs.all_json_ws r); simpl; rewrite ?set_fs_same.
    + destruct v; simpl; eauto.
    + destruct v; eauto.
  - rewrite set_fs_same. eauto.
  - destruct (bool_decide _); simpl; rewrite ?Hf; simpl;
      rewrite ?set_fs_same; eauto.
Qed.

(* ===================================================================== *)
(** ** Connections: backoff in closed form, one handshake per success *)
(* ===================================================================== *)





Lemma handshakes_from n outs :
  Forall (fun cf => (n <= fst cf)%nat /\ snd cf = SessionUpdate)
         (handshakes n outs).
Proof.
  revert n. induction outs as [|out outs IH]; intros n; simpl;
    [constructor|].
  assert (Up : Forall (fun cf => (n <= fst cf)%nat /\ snd cf = SessionUpdate)
                      (handshakes (S n) outs)).
  { eapply Forall_impl; [apply IH|]. simpl. intros cf [H1 H2]. split; [lia|auto]. }
  destruct out; [constructor; [simpl; auto|exact Up]|apply IH|exact Up].
Qed.

Lemma handshakes_increasing n outs :
  StronglySorted lt (map fst (handshakes n outs)).
Proof.
  revert n. induction outs as [|out outs IH]; intros n; simpl;
    [constructor|].
  destruct out; [|apply IH|apply IH]. simpl. constructor; [apply IH|].
  apply Forall_map. eapply Forall_impl; [apply (handshakes_from (S n))|].
  simpl. intros cf [H _]. lia.
Qed.

Lemma reconnect_wire out st :
  running (self st) = true ->
  wire (env (snd (_reconnect out st)))
  = wire (env st) ++ handshakes (opened (env st)) [out] /\
  opened (env (snd (_reconnect out st)))
  = match out with
    | ConnRefused => opened (env st)
    | _ => S (opened (env st))
    end /\
  ws (self (snd (_reconnect out st)))
  = match out with
    | ConnRefused => ws (self st)
    | _ => Some (opened (env st))
    end.
Proof.
  intros Hrun. monad_unfold. simpl. rewrite Hrun. simpl.
  destruct out; simpl; rewrite ?app_nil_r; auto.
Qed.

Lemma handshakes_cons n out outs :
  handshakes n (out :: outs)
  = handshakes n [out]
    ++ handshakes (match out with ConnRefused => n | _ => S n end) outs.
Proof. destruct out; reflexivity. Qed.

Lemma reconnects_opened_mono outs : forall st,
  running (self st) = true ->
  (opened (env st) <= opened (env (reconnects outs st)))%nat.
Proof.
  induction outs as [|o outs IHo]; intros s Hs; [simpl; lia|].
  rewrite reconnects_cons.
  destruct (reconnect_running o s Hs) as (_ & _ & Hs' & _).
  destruct (reconnect_wire o s Hs) as (_ & Ho & _).
  specialize (IHo _ Hs'). rewrite Ho in IHo. destruct o; lia.
Qed.

(** X7.  A run of reconnect attempts puts on the wire one session update
    for each attempt that succeeds and nothing else; each of them goes
    out on a connection of its own, opened by that attempt.  Afterwards
    the client holds the connection opened last, also when its handshake
    failed, and its old one when every attempt was refused. *)
Theorem reconnects_send_one_session_update_per_success outs : forall st,
  running (self st) = true ->
  let n := opened (env st) in
  let st' := reconnects outs st in
  wire (env st') = wire (env st) ++ handshakes n outs /\
  Forall (fun cf => (n <= fst cf < opened (env st'))%nat /\
                    snd cf = SessionUpdate) (handshakes n outs) /\
  StronglySorted lt (map fst (handshakes n outs)) /\
  (opened (env st') = n -> ws (self st') = ws (self st)) /\
  (opened (env st') <> n ->
   ws (self st') = Some (Nat.pred (opened (env st')))).
Proof.
  induction outs as [|out outs IH]; intros st Hrun; cbv zeta.
  - simpl. rewrite app_nil_r. repeat split; auto; try constructor.
    congruence.
  - rewrite reconnects_cons.
    destruct (reconnect_running out st Hrun) as (_ & _ & Hrun' & _).
    destruct (reconnect_wire out st Hrun) as (W & O & C).
    set (st1 := snd (_reconnect out st)) in *.
    destruct (IH st1 Hrun') as (E1 & E2 & _ & E4 & E5).
    pose proof (reconnects_opened_mono outs st1 Hrun') as Mono.
    split; [|split; [|split; [|split]]].
    + rewrite E1, W, <- app_assoc. f_equal.
      rewrite (handshakes_cons _ out outs), O. reflexivity.
    + rewrite (handshakes_cons _ out outs), <- O. apply Forall_app. split.
      * rewrite O in Mono. destruct out; simpl; [|constructor|constructor].
        constructor; [|constructor]. simpl. split; [lia|reflexivity].
      * eapply Forall_impl; [exact E2|]. simpl. intros cf [[H1 H2] H3].
        rewrite O in H1. split; [destruct out; lia|assumption].
    + apply handshakes_increasing.
    + intros Hsame. rewrite O in Mono, E4. destruct out; try lia.
      rewrite E4 by lia. exact C.
    + intros Hdiff.
      destruct (Nat.eq_dec (opened (env (reconnects outs st1)))
                  (opened (env st1))) as [Heq|Hneq].
      * rewrite (E4 Heq), C, Heq, O. destruct out; simpl; congruence.
      * exact (E5 Hneq).
Qed.

Lemma reconnects_send_one_session_update_per_success_witness :
  wire (env (reconnects [ConnRefused; ConnOk; ConnHandshakeFailed; ConnOk]
                        state0))
  = [(0%nat, SessionUpdate); (2%nat, SessionUpdate)].
Proof.
  refine (proj1 (reconnects_send_one_session_update_per_success
                   [ConnRefused; ConnOk; ConnHandshakeFailed; ConnOk]
                   state0 _)).
  reflexivity.
Defined.

(* ===================================================================== *)
(** ** The two loops: what ends them and what does not *)
(* ===================================================================== *)

Lemma handle_event_self event hms st :
  self (snd (handle_event event hms st)) = self st.
Proof.
  destruct (completed_text event) as [t|] eqn:Hct.
  - rewrite (handle_event_text _ _ _ _ Hct), world_op_run. reflexivity.
  - destruct event as [| | | |l|d]; try reflexivity.
    simpl in Hct. unfold handle_event, py_get, bind, ret. simpl.
    destruct (is_str (default (JStr "") (dict_get "type" d)) completed).
    + destruct (default (JStr "") (dict_get "transcript" d)) as [| | |s| |];
        simpl; try reflexivity.
      destruct (Py.truthy (Py.strip s)); [discriminate|reflexivity].
    + repeat match goal with
             | |- context [if ?b then _ else _] => destruct b
             end; simpl; reflexivity.
Qed.

(** A turn of the receiving loop returns, whatever was received, and only
    a signal clears the running flag. *)
Lemma receive_body_returns sig r st :
  fst (receive_body sig r st) = Val tt /\
  running (self (snd (receive_body sig r st))) = running (self st) && negb sig.
Proof.
  assert (T : running (self (snd (receive_try sig r st)))
              = running (self st) && negb sig).
  { unfold receive_try, bind, attr, gets. cbv beta iota.
    destruct (deliver_run sig st) as [E (_ & _ & K3 & _)].
    simpl in K3.
    destruct (ws (self st)); rewrite E; [|exact K3].
    destruct r as [[event|] hms|c'|]; simpl; try exact K3.
    now rewrite handle_event_self. }
  unfold receive_body, try_except.
  destruct (receive_try sig r st) as [[[]|e] s]; simpl in *; [auto|].
  destruct (receive_except_run r e s) as (H0 & _ & _ & H3 & _).
  split; [exact H0|]. now rewrite H3.
Qed.

(** X8.  No receive ends the receiving loop: every turn returns, whatever
    arrives (a message that does not parse, an event of the wrong shape, a
    closed connection and a failed reconnect, an unwritable file), and
    without a signal the loop is still running after any number of
    turns. *)
Theorem receiving_loop_ends_only_on_signal (rs : list recv_result) st :
  running (self st) = true ->
  (forall sig r s, fst (receive_body sig r s) = Val tt) /\
  fst (receive_transcriptions (map (RecvTurn false) rs) st) = Pending /\
  running (self (snd (receive_transcriptions (map (RecvTurn false) rs) st)))
  = true.
Proof.
  intros Hrun. split; [intros; apply receive_body_returns|].
  revert st Hrun. induction rs as [|r rs IH]; intros st Hrun; simpl.
  - rewrite Hrun. auto.
  - rewrite Hrun. apply IH.
    destruct (receive_body_returns false r st) as (_ & ->).
    now rewrite Hrun.
Qed.

Lemma receiving_loop_ends_only_on_signal_witness :
  fst (receive_transcriptions
         (map (RecvTurn false)
              [RecvMessage None "10:00:01"; RecvFailed;
               RecvClosed ConnRefused; RecvMessage (Some (JList [])) "10:00:09"])
         (connected world_ro)) = Pending.
Proof.
  refine (proj1 (proj2 (receiving_loop_ends_only_on_signal
            [RecvMessage None "10:00:01"; RecvFailed;
             RecvClosed ConnRefused; RecvMessage (Some (JList [])) "10:00:09"]
            (connected world_ro) _))).
  reflexivity.
Defined.

Lemma quiet_refl st : quiet st st.
Proof. unfold quiet; auto. Qed.

Lemma quiet_trans st1 st2 st3 : quiet st1 st2 -> quiet st2 st3 -> quiet st1 st3.
Proof.
  unfold quiet. intros (A1 & A2 & A3 & A4 & A5) (B1 & B2 & B3 & B4 & B5).
  repeat split; congruence.
Qed.

Lemma quiet_signal st :
  running (self st) = false -> quiet st (snd (signal_handler st)).
Proof.
  intros H. unfold quiet. simpl. repeat split; auto.
  destruct st as [[i c r d mx] e wt]; simpl in *. now subst.
Qed.

(** X9.  A signal clears the running flag, and a client whose flag is
    cleared does nothing more: both loops end at their next check without
    reading, sending, receiving or writing, and [_reconnect] returns
    without sleeping or connecting.  A signal that arrives during a
    receive which then finds the connection closed leaves no reconnect
    attempt behind. *)
Theorem stopped_client_does_nothing st :
  running (self st) = false ->
  (forall s, running (self (snd (signal_handler s))) = false) /\
  (forall evs, fst (send_audio evs st) = Done /\
               quiet st (snd (send_audio evs st))) /\
  (forall evs, fst (receive_transcriptions evs st) = Done /\
               quiet st (snd (receive_transcriptions evs st))) /\
  (forall out, _reconnect out st = (Val tt, st)) /\
  (forall c s,
     let s' := snd (receive_body true (RecvClosed c) s) in
     running (self s') = false /\
     waited s' = waited s /\
     opened (env s') = opened (env s) /\
     wire (env s') = wire (env s) /\
     ws (self s') = ws (self s)).
Proof.
  intros Hstop. split; [reflexivity|]. split; [|split; [|split]].
  - intros evs. revert st Hstop.
    induction evs as [|[|sig rd sd] evs IH]; intros st Hstop; simpl.
    + rewrite Hstop. split; [reflexivity|apply quiet_refl].
    + destruct (IH (snd (signal_handler st)) eq_refl) as [E Q].
      split; [exact E|].
      eapply quiet_trans; [apply quiet_signal; assumption|exact Q].
    + rewrite Hstop. split; [reflexivity|apply quiet_refl].
  - intros evs. revert st Hstop.
    induction evs as [|[|sig r] evs IH]; intros st Hstop; simpl.
    + rewrite Hstop. split; [reflexivity|apply quiet_refl].
    + destruct (IH (snd (signal_handler st)) eq_refl) as [E Q].
      split; [exact E|].
      eapply quiet_trans; [apply quiet_signal; assumption|exact Q].
    + rewrite Hstop. split; [reflexivity|apply quiet_refl].
  - intros out. now apply reconnect_stopped.
  - intros c s. cbv zeta.
    unfold receive_body, receive_try, receive_except, try_except.
    monad_unfold. simpl.
    destruct (ws (self s)) eqn:E; simpl; rewrite ?E; auto.
Qed.

Lemma stopped_client_does_nothing_witness :
  fst (send_audio [SendTurn false (ReadBytes [Byte.x01]) SendOk]
         (snd (signal_handler (connected world1)))) = Done.
Proof.
  refine (proj1 (proj1 (proj2 (stopped_client_does_nothing
            (snd (signal_handler (connected world1))) _))
            [SendTurn false (ReadBytes [Byte.x01]) SendOk])).
  reflexivity.
Defined.

Lemma send_audio_body_ok b bs st c :
  ws (self st) = Some c ->
  send_audio_body false (ReadBytes (b :: bs)) SendOk st
  = (Val Continue,
     set_env (set_wire (wire (env st) ++ [(c, AudioAppend (b :: bs))])
                (env st)) st).
Proof. intros H. send_unfold. simpl. rewrite H. reflexivity. Qed.

(** X10.  While the connection object is there and every send goes
    through, the forwarding loop sends every chunk it reads, each once,
    in the order read and on that connection, and changes nothing else;
    it is then waiting for the next chunk. *)
Theorem healthy_forwarding_sends_every_chunk chunks : forall st c,
  running (self st) = true ->
  ws (self st) = Some c ->
  Forall (fun b => b <> []) chunks ->
  let evs := map (fun b => SendTurn false (ReadBytes b) SendOk) chunks in
  let st' := snd (send_audio evs st) in
  fst (send_audio evs st) = Pending /\
  wire (env st') = wire (env st) ++ map (fun b => (c, AudioAppend b)) chunks /\
  self st' = self st /\
  fs (env st') = fs (env st) /\
  stderr (env st') = stderr (env st).
Proof.
  induction chunks as [|b chunks IH]; intros st c Hrun Hws Hall; cbv zeta.
  - simpl. rewrite Hrun, app_nil_r. auto.
  - inversion Hall as [|? ? Hb Hrest]; subst.
    destruct b as [|x b]; [congruence|].
    simpl. rewrite Hrun, (send_audio_body_ok x b st c Hws).
    set (st1 := set_env _ st).
    destruct (IH st1 c Hrun Hws Hrest) as (E1 & E2 & E3 & E4 & E5).
    split; [exact E1|]. split; [|auto].
    rewrite E2. simpl. now rewrite <- app_assoc.
Qed.

Lemma healthy_forwarding_sends_every_chunk_witness :
  audio_sent (wire (env (snd (send_audio
     (map (fun b => SendTurn false (ReadBytes b) SendOk)
          [[Byte.x01]; [Byte.x02; Byte.x03]; [Byte.x01]])
     (connected world1)))))
  = [[Byte.x01]; [Byte.x02; Byte.x03]; [Byte.x01]].
Proof.
  refine (eq_trans (f_equal audio_sent
    (proj1 (proj2 (healthy_forwarding_sends_every_chunk
       [[Byte.x01]; [Byte.x02; Byte.x03]; [Byte.x01]]
       (connected world1) 0%nat _ _ _)))) _).
  - reflexivity.
  - reflexivity.
  - repeat constructor; discriminate.
  - reflexivity.
Defined.

(** X11.  A read that fails, or a send that fails otherwise than by a
    closed connection, ends the forwarding loop for good: the error is
    logged, nothing is sent, and no reconnect is tried.  The client is not
    stopped by it: the running flag stays set and the receiving loop goes
    on as before. *)
Theorem forwarding_ends_on_read_or_transport_failure rd sd rest st :
  running (self st) = true ->
  rd = ReadFailed \/
  (exists b, rd = ReadBytes b /\ b <> [] /\ ws (self st) <> None /\
             sd = SendFailed) ->
  let st' := snd (send_audio (SendTurn false rd sd :: rest) st) in
  fst (send_audio (SendTurn false rd sd :: rest) st) = Done /\
  (exists e, st' = logged ["Error sending audio: " +:+ exn_str e] st) /\
  running (self st') = true /\
  wire (env st') = wire (env st) /\
  waited st' = waited st /\
  fst (receive_transcriptions [] st') = Pending.
Proof.
  intros Hrun Hfail. cbv zeta. simpl. rewrite Hrun.
  destruct Hfail as [-> | (b & -> & Hb & Hws & ->)].
  - send_unfold. simpl. rewrite Hrun. split; [reflexivity|].
    split; [now exists (OSError "<stdin>")|auto].
  - destruct b as [|x b]; [congruence|].
    destruct (ws (self st)) as [c|] eqn:E; [|congruence].
    send_unfold. simpl. rewrite E. simpl. rewrite Hrun. split; [reflexivity|].
    split; [now exists TransportError|auto].
Qed.

Lemma forwarding_ends_on_read_or_transport_failure_witness :
  fst (send_audio [SendTurn false ReadFailed SendOk;
                   SendTurn false (ReadBytes [Byte.x01]) SendOk]
         (connected world1)) = Done.
Proof.
  refine (proj1 (forwarding_ends_on_read_or_transport_failure ReadFailed
            SendOk [SendTurn false (ReadBytes [Byte.x01]) SendOk]
            (connected world1) _ (or_introl eq_refl))).
  reflexivity.
Defined.

(* ===================================================================== *)
(** ** The mentions file *)
(* ===================================================================== *)

(** When both files can be written, [_write_transcript] adds the record
    that [classify] names to the mentions file, or nothing. *)
Lemma write_transcript_records m ts t w :
  transcript_path m <> mentions_path m ->
  transcript_path m ∉ unwritable (fs w) ->
  mentions_path m ∉ unwritable (fs w) ->
  fst (_write_transcript m ts t w) = Val tt /\
  content (fs (snd (_write_transcript m ts t w))) (mentions_path m)
  = content (fs w) (mentions_path m)
    +:+ match classify t (MENTION_KEYWORDS w) with
        | Some (k, _) => record_line k ts t
        | None => ""
        end.
Proof.
  intros Hne Ht Hm. rewrite write_transcript_run, check_mentions_run
    by assumption. simpl.
  destruct (classify t (MENTION_KEYWORDS w)) as [[k kw]|]; simpl.
  - rewrite (bool_decide_eq_false_2 _ Hm). simpl. split; [reflexivity|].
    rewrite content_appended_same. f_equal.
    now apply content_appended_other.
  - split; [reflexivity|]. rewrite append_nil_r.
    now apply content_appended_other.
Qed.

Lemma handle_event_keywords event hms st :
  MENTION_KEYWORDS (env (snd (handle_event event hms st)))
  = MENTION_KEYWORDS (env st).
Proof.
  destruct (completed_text event) as [t|] eqn:Hct.
  - rewrite (handle_event_text _ _ _ _ Hct), world_op_run. simpl.
    apply write_transcript_config.
  - now destruct (handle_event_no_text event hms st Hct) as (_ & _ & _ & H & _).
Qed.

Lemma receive_body_mentions_step sig r st :
  let m := ident (self st) in
  ws (self st) <> None ->
  transcript_path m <> mentions_path m ->
  transcript_path m ∉ unwritable (fs (env st)) ->
  mentions_path m ∉ unwritable (fs (env st)) ->
  let st' := snd (receive_body sig r st) in
  MENTION_KEYWORDS (env st') = MENTION_KEYWORDS (env st) /\
  content (fs (env st')) (mentions_path m)
  = content (fs (env st)) (mentions_path m)
    +:+ record_of (MENTION_KEYWORDS (env st)) r.
Proof.
  intros m Hws Hne Ht Hm. cbv zeta.
  assert (T : let s := snd (receive_try sig r st) in
              MENTION_KEYWORDS (env s) = MENTION_KEYWORDS (env st) /\
              content (fs (env s)) (mentions_path m)
              = content (fs (env st)) (mentions_path m)
                +:+ record_of (MENTION_KEYWORDS (env st)) r).
  { cbv zeta. unfold receive_try, bind, attr, gets. cbv beta iota.
    destruct (deliver_run sig st) as [E (K1 & K2 & K3 & K4 & K5)].
    set (st1 := snd (deliver sig st)) in *. simpl in K1, K2, K4.
    destruct (ws (self st)) as [c|]; [|congruence]. rewrite E.
    destruct r as [[event|] hms|c'|]; simpl;
      try (rewrite K1, K4, append_nil_r; auto; fail).
    rewrite handle_event_keywords, K4. split; [reflexivity|].
    destruct (completed_text event) as [t|] eqn:Hct.
    - rewrite (handle_event_text _ _ _ _ Hct), world_op_run. simpl.
      rewrite K2. fold m.
      destruct (write_transcript_records m hms t (env st1)) as [_ R];
        try (rewrite K1; assumption); [assumption|].
      now rewrite R, K1, K4.
    - destruct (handle_event_no_text event hms st1 Hct) as (H1 & _).
      now rewrite H1, K1, append_nil_r. }
  cbv zeta in T. unfold receive_body, try_except.
  destruct (receive_try sig r st) as [[u|e] s]; simpl in *; [exact T|].
  destruct (receive_except_run r e s) as (_ & H1 & _ & _ & H4 & _).
  now rewrite H1, H4.
Qed.

(** X12.  While there is a connection object and both files can be
    written, the receiving loop adds to the mentions file, for the
    receives it makes and in their order, one record for every completed
    transcription with text in which a keyword occurs, of the kind that
    [classify] gives, and nothing for any other receive. *)
Theorem mention_records_follow_receives evs : forall st,
  ws (self st) <> None ->
  transcript_path (ident (self st)) <> mentions_path (ident (self st)) ->
  transcript_path (ident (self st)) ∉ unwritable (fs (env st)) ->
  mentions_path (ident (self st)) ∉ unwritable (fs (env st)) ->
  content (fs (env (snd (receive_transcriptions evs st))))
          (mentions_path (ident (self st)))
  = content (fs (env st)) (mentions_path (ident (self st)))
    +:+ records_of (MENTION_KEYWORDS (env st))
                   (received (running (self st)) evs).
Proof.
  induction evs as [|ev evs IH]; intros st Hws Hne Ht Hm.
  - simpl. now rewrite append_nil_r.
  - destruct ev as [|sig r].
    + change (receive_transcriptions (RecvSignal :: evs) st)
        with (receive_transcriptions evs (snd (signal_handler st))).
      rewrite signal_handler_run. set (st1 := snd (_, _)).
      exact (IH st1 Hws Hne Ht Hm).
    + simpl. destruct (running (self st)) eqn:Hrun.
      * destruct (receive_body_step sig r st Hws Hne Ht)
          as (B1 & B2 & B3 & B4 & _).
        destruct (receive_body_mentions_step sig r st Hws Hne Ht Hm)
          as (K & R).
        set (st1 := snd (receive_body sig r st)) in *.
        rewrite <- B1 in Hne, Ht, Hm |- *. rewrite <- B4 in Ht, Hm.
        rewrite (IH st1 B2 Hne Ht Hm). rewrite B1 in *.
        rewrite R, K, B3, Hrun. simpl. now rewrite append_assoc.
      * simpl. now rewrite append_nil_r.
Qed.

Lemma mention_records_follow_receives_witness :
  content (fs (env (snd (receive_transcriptions
                           [heard "good morning" "10:00:01";
                            heard "Claude, could you repeat that" "10:00:04";
                            RecvTurn false (RecvClosed ConnOk);
                            heard "the assistant is here" "10:00:09"]
                           (connected world1)))))
          (mentions_path meeting0)
  = "[10:00:04] QUESTION: Claude, could you repeat that" +:+ nl
    +:+ "[10:00:09] MENTION: the assistant is here" +:+ nl.
Proof.
  refine (eq_trans
            (mention_records_follow_receives
               [heard "good morning" "10:00:01";
                heard "Claude, could you repeat that" "10:00:04";
                RecvTurn false (RecvClosed ConnOk);
                heard "the assistant is here" "10:00:09"]
               (connected world1) _ _ _ _) _).
  - vm_compute. discriminate.
  - intros H. vm_compute in H. discriminate H.
  - refine (bool_decide_unpack _ _). vm_compute. exact I.
  - refine (bool_decide_unpack _ _). vm_compute. exact I.
  - vm_compute. reflexivity.
Defined.



(* ===================================================================== *)
(** ** Classification and case *)
(* ===================================================================== *)

Lemma lower_char_idem a : Py.lower_char (Py.lower_char a) = Py.lower_char a.
Proof. destruct a as [[] [] [] [] [] [] [] []]; reflexivity. Qed.

Lemma lower_idem s : Py.lower (Py.lower s) = Py.lower s.
Proof.
  induction s as [|a s IH]; simpl; [reflexivity|].
  now rewrite lower_char_idem, IH.
Qed.

Lemma lower_char_question_mark a :
  Ascii.eqb "?" (Py.lower_char a) = Ascii.eqb "?" a.
Proof. destruct a as [[] [] [] [] [] [] [] []]; reflexivity. Qed.

Lemma prefix_empty s : String.prefix "" s = true.
Proof. now destruct s. Qed.

Lemma contains_empty s : Py.contains "" s = true.
Proof.
  destruct s; rewrite ?contains_nil, ?contains_cons, prefix_empty; reflexivity.
Qed.

Lemma prefix_question_mark a s :
  String.prefix "?" (String a s) = Ascii.eqb "?" a.
Proof.
  destruct (Ascii.eqb_spec "?" a) as [<-|Hne].
  - apply prefix_occurs. now exists s.
  - destruct (String.prefix "?" (String a s)) eqn:E; [|reflexivity].
    apply prefix_occurs in E. destruct E as [b Hb].
    change ("?" +:+ b) with (String "?" b) in Hb. congruence.
Qed.

Lemma contains_question_mark_lower s :
  Py.contains "?" (Py.lower s) = Py.contains "?" s.
Proof.
  induction s as [|a s IH]; [reflexivity|].
  change (Py.lower (String a s)) with (String (Py.lower_char a) (Py.lower s)).
  rewrite !contains_cons, !prefix_question_mark, IH.
  now rewrite lower_char_question_mark.
Qed.

Lemma is_question_lower text : is_question (Py.lower text) = is_question text.
Proof.
  unfold is_question. now rewrite contains_question_mark_lower, lower_idem.
Qed.

Lemma find_keyword_lower text kws :
  find (fun keyword =>
          Py.contains (Py.lower keyword) (Py.lower (Py.lower text)))
       (map Py.lower kws)
  = option_map Py.lower
      (find (fun keyword => Py.contains (Py.lower keyword) (Py.lower text))
            kws).
Proof.
  induction kws as [|kw kws IH]; simpl; [reflexivity|].
  rewrite !lower_idem.
  destruct (Py.contains (Py.lower kw) (Py.lower text)); [reflexivity|].
  rewrite <- IH. now rewrite lower_idem.
Qed.

(** X14.  [_check_mentions] does not see case: putting the text and the
    keywords in lower case beforehand changes neither whether a record is
    written, nor which keyword of the list is taken, nor the kind of the
    record.  A keyword that is the empty string occurs in every text, so
    with it at the head of the list every line is flagged. *)
Theorem classification_ignores_case text kws :
  classify (Py.lower text) (map Py.lower kws)
  = option_map (fun r => (fst r, Py.lower (snd r))) (classify text kws) /\
  classify text ("" :: kws)
  = Some (if is_question text then QUESTION else MENTION, "") /\
  (forall m ts w,
     MENTION_KEYWORDS w = "" :: kws ->
     mentions_path m ∉ unwritable (fs w) ->
     content (fs (snd (_check_mentions m ts text w))) (mentions_path m)
     = content (fs w) (mentions_path m)
       +:+ record_line (if is_question text then QUESTION else MENTION)
             ts text).
Proof.
  split; [|split].
  - unfold classify. rewrite find_keyword_lower, is_question_lower.
    now destruct (find _ kws).
  - unfold classify. simpl. now rewrite contains_empty.
  - intros m ts w Hk Hm. rewrite check_mentions_run, Hk.
    unfold classify. simpl. rewrite contains_empty. simpl.
    rewrite (bool_decide_eq_false_2 _ Hm). simpl.
    apply content_appended_same.
Qed.

(* ===================================================================== *)
(** ** The text that is written *)
(* ===================================================================== *)

Lemma rstrip_idem s : Py.rstrip (Py.rstrip s) = Py.rstrip s.
Proof.
  induction s as [|a s IH]; [reflexivity|]. simpl.
  destruct (Py.rstrip s) as [|b r] eqn:E.
  - destruct (Py.isspace a) eqn:Ha; [reflexivity|]. simpl. now rewrite Ha.
  - change (Py.rstrip (String a (String b r)))
      with (match Py.rstrip (String b r) with
            | "" => if Py.isspace a then "" else String a ""
            | x => String a x
            end).
    now rewrite IH.
Qed.

Lemma lstrip_empty_blank s : Py.lstrip s = "" -> Py.blank s = true.
Proof.
  induction s as [|a s IH]; simpl; [reflexivity|].
  destruct (Py.isspace a); [exact IH|discriminate].
Qed.

Lemma strip_empty_blank s : Py.strip s = "" -> Py.blank s = true.
Proof.
  unfold Py.strip. intros H.
  destruct (lstrip_head s) as [E|(a & r & E & Ha)].
  - now apply lstrip_empty_blank.
  - rewrite E in H. destruct (rstrip_head a r Ha) as [r' E'].
    rewrite E' in H. discriminate H.
Qed.

Lemma strip_fixed s :
  Py.lstrip (Py.strip s) = Py.strip s /\ Py.rstrip (Py.strip s) = Py.strip s.
Proof.
  split; [|apply rstrip_idem].
  destruct (strip_head s) as [E|(a & r & E & Ha)]; rewrite E;
    [reflexivity|]. simpl. now rewrite Ha.
Qed.

(** X15.  The receiving loop writes the stripped transcript of a
    completed transcription exactly when the transcript is not blank, and
    drops the event otherwise.  The text written has no white space at
    either end, so stripping it again changes nothing, and it is not
    empty. *)
Theorem written_text_is_stripped d t hms st :
  dict_get "type" d = Some (JStr completed) ->
  default (JStr "") (dict_get "transcript" d) = JStr t ->
  handle_event (JDict d) hms st
  = (if Py.blank t then (Val tt, st)
     else world_op (_write_transcript (ident (self st)) hms (Py.strip t)) st) /\
  (Py.blank t = false -> Py.strip t <> "") /\
  Py.lstrip (Py.strip t) = Py.strip t /\
  Py.rstrip (Py.strip t) = Py.strip t /\
  Py.strip (Py.strip t) = Py.strip t.
Proof.
  intros Hty Htr.
  destruct (strip_fixed t) as [L R].
  split; [|split; [|split; [exact L|split; [exact R|]]]].
  - unfold handle_event, py_get, bind, ret. rewrite Hty, Htr. simpl.
    destruct (Py.blank t) eqn:Hb.
    + rewrite strip_blank by assumption. reflexivity.
    + destruct (Py.strip t) eqn:E; [|reflexivity].
      apply strip_empty_blank in E. congruence.
  - intros Hb E. apply strip_empty_blank in E. congruence.
  - unfold Py.strip at 1. now rewrite L, R.
Qed.

Lemma written_text_is_stripped_witness :
  handle_event (completed_event "  hello claude  ") "10:00:01"
    (connected world1)
  = world_op (_write_transcript meeting0 "10:00:01" "hello claude")
      (connected world1).
Proof.
  refine (eq_trans (proj1 (written_text_is_stripped
            [("type", JStr completed); ("transcript", JStr "  hello claude  ")]
            "  hello claude  " "10:00:01" (connected world1) _ _)) _).
  - reflexivity.
  - reflexivity.
  - vm_compute. reflexivity.
Defined.

(* ===================================================================== *)
(** ** The life of the streaming client: [run] *)
(* ===================================================================== *)

Lemma unlink_run p d :
  Fs.unlink p d =
  if bool_decide (p ∈ unwritable d) then (Exn (OSError p), d)
  else (Val tt, set_symlinks (delete p (symlinks d))
                  (set_files (delete p (files d)) d)).
Proof.
  unfold Fs.unlink, Fs.guard_writable, bind, modify.
  now destruct (bool_decide (p ∈ unwritable d)).
Qed.

(** [remove_current_link] returns, logs one line, and touches nothing but
    what is at the [current] link; a link there is gone afterwards unless
    it cannot be removed. *)
Lemma remove_current_link_run w :
  let current := path_join (MEETINGS_DIR w) "current" in
  let w' := snd (remove_current_link w) in
  fst (remove_current_link w) = Val tt /\
  stderr w' = stderr w ++ ["Transcriber stopped"] /\
  wire w' = wire w /\ opened w' = opened w /\
  MEETINGS_DIR w' = MEETINGS_DIR w /\
  (forall p, p <> current -> files (fs w') !! p = files (fs w) !! p) /\
  (current ∉ unwritable (fs w) -> symlinks (fs w') !! current = None).
Proof.
  cbv zeta. unfold remove_current_link.
  remember (path_join (MEETINGS_DIR w) "current") as current eqn:Hc.
  unfold bind, gets, try_except, ret, eprint, modify. rewrite io_run.
  unfold Fs.is_symlink, gets. cbn [fst snd]. rewrite set_fs_same, <- Hc.
  destruct (symlinks (fs w) !! current) as [tgt|] eqn:Hl.
  - rewrite bool_decide_eq_true_2 by eauto.
    rewrite io_run, unlink_run.
    destruct (bool_decide (current ∈ unwritable (fs w))) eqn:Hu; simpl;
      do 5 (split; [reflexivity|]); split.
    + auto.
    + intros Hn. apply bool_decide_eq_true_1 in Hu. contradiction.
    + intros p Hp. now rewrite lookup_delete_ne.
    + intros _. apply lookup_delete_eq.
  - rewrite bool_decide_eq_false_2 by (intros [x Hx]; discriminate Hx).
    simpl. do 5 (split; [reflexivity|]); split; auto.
Qed.

(** [update_metadata_ended] returns, and touches nothing but the metadata
    file and the log. *)
Lemma update_metadata_ended_frame m now w :
  let w' := snd (update_metadata_ended m now w) in
  fst (update_metadata_ended m now w) = Val tt /\
  MEETINGS_DIR w' = MEETINGS_DIR w /\
  wire w' = wire w /\ opened w' = opened w /\
  unwritable (fs w') = unwritable (fs w) /\
  symlinks (fs w') = symlinks (fs w) /\
  (forall p, p <> metadata_path m -> files (fs w') !! p = files (fs w) !! p) /\
  exists l, stderr w' = stderr w ++ l.
Proof.
  cbv zeta. rewrite update_metadata_ended_run. cbv zeta. cbn [fst snd].
  split; [reflexivity|].
  assert (R : forall e w0, stderr (reported e w0) = stderr w0 ++ [_])
    by reflexivity.
  destruct (files (fs w) !! metadata_path m) as [[[v|] r]|].
  - destruct (Fs.all_json_ws r); [|repeat split; eauto].
    destruct v; try (repeat split; eauto; fail).
    destruct (bool_decide (metadata_path m ∈ unwritable (fs w)));
      [destruct (bool_decide (metadata_path m ∈ torn (fs w)))|]; simpl;
      repeat split; eauto;
      try (intros p Hp; now rewrite lookup_insert_ne);
      exists []; now rewrite app_nil_r.
  - repeat split; eauto.
  - destruct (bool_decide (metadata_path m ∈ dirs (fs w)));
      repeat split; eauto. exists []. now rewrite app_nil_r.
Qed.

(** The [finally] block of [run] always returns.  It clears the running
    flag, logs "Transcriber stopped" last, sends nothing and sleeps for
    nothing; the [current] link is gone unless it cannot be removed; and a
    metadata file that holds an object and can be written says "ended"
    with the time of the block, and nothing else is logged then. *)
Lemma run_finally_effect now st :
  let m := ident (self st) in
  let current := path_join (MEETINGS_DIR (env st)) "current" in
  let st' := snd (run_finally now st) in
  fst (run_finally now st) = Val tt /\
  self st' = set_running false (self st) /\
  wire (env st') = wire (env st) /\
  waited st' = waited st /\
  (exists l, stderr (env st')
             = stderr (env st) ++ l ++ ["Transcriber stopped"]) /\
  (current ∉ unwritable (fs (env st)) ->
   symlinks (fs (env st')) !! current = None) /\
  (forall d r,
     files (fs (env st)) !! metadata_path m
     = Some (mkFile (Some (JDict d)) r) ->
     Fs.all_json_ws r = true ->
     metadata_path m ∉ unwritable (fs (env st)) ->
     metadata_path m <> current ->
     files (fs (env st')) !! metadata_path m
     = Some (mkFile (Some (ended now d)) "") /\
     stderr (env st') = stderr (env st) ++ ["Transcriber stopped"]).
Proof.
  cbv zeta. unfold run_finally, self_op, attr, bind, modify, gets.
  cbv beta iota. rewrite world_op_run. cbn [fst snd].
  set (m := ident (self st)).
  set (st1 := set_self (set_running false (self st)) st).
  change (ident (self st1)) with m. change (env st1) with (env st).
  destruct (update_metadata_ended_frame m now (env st))
    as (E0 & F1 & F2 & F3 & F4 & F5 & F6 & (l & F7)).
  rewrite E0. set (w2 := snd (update_metadata_ended m now (env st))) in *.
  rewrite world_op_run. cbn [fst snd].
  change (env (set_env w2 st1)) with w2.
  destruct (remove_current_link_run w2) as (R0 & R1 & R2 & R3 & R4 & R5 & R6).
  set (w3 := snd (remove_current_link w2)) in *.
  rewrite F1 in R5, R6.
  assert (Hobj : forall d r,
             files (fs (env st)) !! metadata_path m
             = Some (mkFile (Some (JDict d)) r) ->
             Fs.all_json_ws r = true ->
             metadata_path m ∉ unwritable (fs (env st)) ->
             files (fs w2) !! metadata_path m
             = Some (mkFile (Some (ended now d)) "") /\
             stderr w2 = stderr (env st)).
  { intros d r Hf Hws Hu. subst w2.
    rewrite (update_metadata_ended_object m now (env st) d r) by assumption.
    simpl. split; [apply lookup_insert_eq|reflexivity]. }
  clearbody w3 w2.
  split; [exact R0|]. split; [reflexivity|]. split; [simpl; congruence|].
  split; [reflexivity|]. split; [|split].
  - exists l. simpl. now rewrite R1, F7, <- app_assoc.
  - intros Hu. simpl. apply R6. now rewrite F4.
  - intros d r Hf Hws Hu Hne. simpl.
    destruct (Hobj d r Hf Hws Hu) as [H1 H2].
    rewrite R5 by assumption. split; [exact H1|]. now rewrite R1, H2.
Qed.

(** What a setup that returns says about the paths it wrote. *)
Lemma setup_metadata_and_link_writable m now w :
  fst (setup_metadata_and_link m now w) = Val tt ->
  let w' := snd (setup_metadata_and_link m now w) in
  (metadata_path m ∉ unwritable (fs w)) /\
  (path_join (MEETINGS_DIR w) "current" ∉ unwritable (fs w)) /\
  unwritable (fs w') = unwritable (fs w) /\
  MEETINGS_DIR w' = MEETINGS_DIR w /\
  wire w' = wire w /\ opened w' = opened w.
Proof.
  cbv zeta. unfold setup_metadata_and_link.
  destruct (get_participant_name_run w) as [name E].
  rewrite bind_run, E. cbn [fst snd].
  io_unfold. simpl.
  repeat match goal with
         | |- context [bool_decide ?P] =>
             destruct (bool_decide P) eqn:?; simpl
         end;
    try (intros H; discriminate H); intros _;
    repeat split; auto;
    match goal with
    | H : bool_decide (?p ∈ ?X) = false |- ?p ∉ ?X =>
        exact (bool_decide_eq_false_1 _ H)
    end.
Qed.

(** What the streaming setup leaves when it returns. *)
Lemma streaming_setup_ok w id url now :
  let m := init_meeting (MEETINGS_DIR w) id url in
  let current := path_join (MEETINGS_DIR w) "current" in
  plain_name id = true ->
  fst (MeetingTranscriber.setup_meeting_directory m now w) = Val tt ->
  let w' := snd (MeetingTranscriber.setup_meeting_directory m now w) in
  (exists name,
     files (fs w') !! metadata_path m
     = Some (mkFile (Some (new_metadata m now name)) "")) /\
  (metadata_path m ∉ unwritable (fs w')) /\
  (current ∉ unwritable (fs w')) /\
  MEETINGS_DIR w' = MEETINGS_DIR w /\
  wire w' = wire w /\ opened w' = opened w /\
  symlinks (fs w') !! current = Some (meeting_dir m) /\
  stderr w' = stderr w ++ ["Meeting directory: " +:+ meeting_dir m].
Proof.
  intros m current Hplain.
  pose proof (metadata_not_current (MEETINGS_DIR w) id url Hplain) as Hmc.
  fold m current in Hmc.
  assert (Hc : path_join (MEETINGS_DIR w) "current" = current) by reflexivity.
  clearbody m current. cbv zeta. intros Hs.
  destruct (setup_reaches_metadata m now w _ (or_introl eq_refl) Hs)
    as (w3 & E & _ & Hmd & Herr & _).
  assert (W : wire w3 = wire w /\ opened w3 = opened w).
  { revert E. rewrite streaming_setup_steps. revert Hs.
    rewrite streaming_setup_steps.
    destruct (fst (Fs.mkdir (meeting_dir m) (fs w))) as [[]|e];
      [|cbn [fst]; intros H; discriminate H].
    destruct (fst (io (Fs.write_text (transcript_path m) "") _)) as [[]|e];
      [|cbn [fst]; intros H; discriminate H].
    destruct (fst (io (Fs.write_text (mentions_path m) "") _)) as [[]|e];
      [|cbn [fst]; intros H; discriminate H].
    intros Hs E.
    destruct (setup_metadata_and_link_writable m now _ Hs)
      as (_ & _ & _ & _ & W1 & O1).
    destruct (setup_metadata_and_link_writable m now w3
                ltac:(now rewrite <- E))
      as (_ & _ & _ & _ & W3 & O3).
    rewrite E in W1, O1. rewrite W3 in W1. rewrite O3 in O1.
    rewrite !io_run in W1, O1. simpl in W1, O1. auto. }
  destruct W as [W O].
  rewrite E in Hs |- *.
  destruct (setup_metadata_and_link_success m now w3) as
    (name & _ & Hfile & Hlink & _ & Hlog); [now rewrite Hmd, Hc|exact Hs|].
  destruct (setup_metadata_and_link_writable m now w3 Hs)
    as (U1 & U2 & U3 & M & W' & O').
  rewrite Hmd, Hc in Hlink, U2.
  split; [eauto|]. rewrite U3.
  repeat split; auto; congruence.
Qed.

(** The exception that a failed connection attempt raises. *)
Lemma first_connect_fails out st :
  out <> ConnOk ->
  forall gather,
  exists st1,
    try_except (connect out ;; fun s => (Val tt, gather s))
               (fun e => world_op (eprint ("Error: " +:+ exn_str e))) st
    = (Val tt, st1) /\
    stderr (env st1)
    = stderr (env st)
      ++ ["Connecting to Speaches";
          "Error: " +:+ exn_str (match out with
                                 | ConnRefused => ConnectionRefused
                                 | _ => ConnectionClosed
                                 end)] /\
    fs (env st1) = fs (env st) /\
    MEETINGS_DIR (env st1) = MEETINGS_DIR (env st) /\
    wire (env st1) = wire (env st) /\
    waited st1 = waited st /\
    ident (self st1) = ident (self st) /\
    running (self st1) = running (self st).
Proof.
  intros Hout gather. destruct out; [congruence| |].
  - eexists. split; [reflexivity|]. simpl.
    rewrite <- app_assoc. auto 10.
  - eexists. split; [reflexivity|]. simpl.
    rewrite <- app_assoc. auto 10.
Qed.

(** X16.  For a meeting id that is a single name other than "current"
    and a meeting directory that is not a link, on a workspace that the
    setup could create: when the first connection attempt fails, [run]
    does not try again.  The two loops are never started, nothing is sent
    or slept, the error is logged after the lines of the setup and of the
    attempt and before "Transcriber stopped", and the [finally] block
    ends the meeting at once: the metadata then says "ended" with the two
    times, and the [current] link is gone. *)
Theorem run_ends_when_first_connect_fails gather started ended_at out w id url :
  let st := mkState (__init__ w id url) w [] in
  let m := ident (self st) in
  out <> ConnOk ->
  plain_name id = true ->
  id <> "current" ->
  symlinks (fs w) !! meeting_dir m = None ->
  fst (MeetingTranscriber.setup_meeting_directory m started w) = Val tt ->
  let r := run gather started ended_at out st in
  fst r = Val tt /\
  (forall gather', run gather' started ended_at out st = r) /\
  running (self (snd r)) = false /\
  waited (snd r) = [] /\
  wire (env (snd r)) = wire w /\
  stderr (env (snd r))
  = stderr w
    ++ ["Meeting directory: " +:+ meeting_dir m;
        "Connecting to Speaches";
        "Error: " +:+ exn_str (match out with
                               | ConnRefused => ConnectionRefused
                               | _ => ConnectionClosed
                               end);
        "Transcriber stopped"] /\
  field (env (snd r)) (metadata_path m) "status" = Some (JStr "ended") /\
  field (env (snd r)) (metadata_path m) "started_at" = Some (JStr started) /\
  field (env (snd r)) (metadata_path m) "ended_at" = Some (JStr ended_at) /\
  symlinks (fs (env (snd r))) !! path_join (MEETINGS_DIR w) "current" = None.
Proof.
  intros st m Hout Hplain _ _ Hs r.
  assert (Hm : init_meeting (MEETINGS_DIR w) id url = m) by reflexivity.
  pose proof (metadata_not_current (MEETINGS_DIR w) id url Hplain) as Hmc.
  pose proof (streaming_setup_ok w id url started Hplain) as Hok.
  cbv zeta in Hok. rewrite Hm in Hmc, Hok.
  assert (Hi : ident (self st) = m) by reflexivity.
  assert (He : env st = w) by reflexivity.
  assert (Hwt : waited st = []) by reflexivity.
  clearbody m.
  destruct (Hok Hs) as ((name & Hfile) & U1 & U2 & Hmd & Hw & _ & _ & Hlog).
  clear Hok.
  set (w1 := snd (MeetingTranscriber.setup_meeting_directory m started w)) in *.
  assert (Run : forall g,
             run g started ended_at out st =
             let '(r0, st1) :=
               try_except (connect out ;; fun s => (Val tt, g s))
                 (fun e => world_op (eprint ("Error: " +:+ exn_str e)))
                 (set_env w1 st) in
             match run_finally ended_at st1 with
             | (Val _, st2) => (r0, st2)
             | (Exn e, st2) => (Exn e, st2)
             end).
  { intros g. unfold run. unfold bind at 1 2. unfold attr, gets.
    cbv beta iota. rewrite world_op_run, Hi, He.
    fold w1. now rewrite Hs. }
  assert (Same : forall g, run g started ended_at out st = r).
  { intros g. subst r. rewrite !Run.
    destruct out; [congruence| |]; reflexivity. }
  split; [|split; [exact Same|]]; subst r; rewrite Run;
    destruct (first_connect_fails out (set_env w1 st) Hout gather)
      as (st1 & T & L & F & MD & W & Wt & I & R);
    rewrite T;
    destruct (run_finally_effect ended_at st1)
      as (E0 & E1 & E2 & E3 & _ & E5 & E6);
    destruct (run_finally ended_at st1) as [[[]|x] st2];
    cbn [fst snd] in *; try discriminate E0; [reflexivity|].
  change (env (set_env w1 st)) with w1 in *.
  change (ident (self (set_env w1 st))) with (ident (self st)) in I.
  change (waited (set_env w1 st)) with (waited st) in Wt.
  rewrite I, Hi, F, MD, Hmd in E6. rewrite F, MD, Hmd in E5.
  destruct (E6 _ _ Hfile eq_refl U1 Hmc) as [E6f E6l].
  assert (Fd : forall k, field (env st2) (metadata_path m) k
                         = dict_get k
                             (dict_set "status" (JStr "ended")
                                (dict_set "ended_at" (JStr ended_at)
                                   [ ("meeting_id", JStr (meeting_id m));
                                     ("url", JStr (meeting_url m));
                                     ("started_at", JStr started);
                                     ("ended_at", JNull);
                                     ("participant_name", name);
                                     ("status", JStr "active") ]))).
  { intros k. unfold field, document. now rewrite E6f. }
  split; [now rewrite E1|]. split; [congruence|]. split; [congruence|].
  split; [rewrite E6l, L, Hlog, <- !app_assoc; reflexivity|].
  rewrite !Fd. repeat split; try reflexivity. now apply E5.
Qed.

Lemma run_ends_when_first_connect_fails_witness :
  field (env (snd (run (fun s => s) "2026-01-05T10:00:00Z"
                     "2026-01-05T10:00:02Z" ConnRefused state0)))
        (metadata_path meeting0) "status"
  = Some (JStr "ended").
Proof.
  refine (proj1 (proj2 (proj2 (proj2 (proj2 (proj2 (proj2
    (run_ends_when_first_connect_fails (fun s => s) "2026-01-05T10:00:00Z"
       "2026-01-05T10:00:02Z" ConnRefused world0 "abc-defg-hij"
       "https://meet.google.com/abc-defg-hij" _ _ _ _ _)))))))).
  - discriminate.
  - vm_compute. reflexivity.
  - discriminate.
  - vm_compute. reflexivity.
  - vm_compute. reflexivity.
Defined.

(** X17.  The setup runs before the [try] of [run]: when it raises, the
    exception leaves [run] at once.  No connection is tried, the loops
    are not started, the [finally] block does not run: the running flag
    stays as it was, "Transcriber stopped" is not logged, and what the
    setup had written before it failed stays, so that the metadata can be
    left saying "active". *)
Theorem run_raises_when_setup_fails gather started ended_at out st e :
  let m := ident (self st) in
  fst (MeetingTranscriber.setup_meeting_directory m started (env st)) = Exn e ->
  let w1 := snd (MeetingTranscriber.setup_meeting_directory m started (env st)) in
  run gather started ended_at out st = (Exn e, set_env w1 st) /\
  self (snd (run gather started ended_at out st)) = self st /\
  waited (snd (run gather started ended_at out st)) = waited st.
Proof.
  intros m Hs w1.
  assert (E : run gather started ended_at out st = (Exn e, set_env w1 st)).
  { unfold run. unfold bind at 1 2. unfold attr, gets. cbv beta iota.
    rewrite world_op_run. fold m. now rewrite Hs. }
  rewrite E. auto.
Qed.

Lemma run_raises_when_setup_fails_witness :
  fst (run (fun s => s) "2026-01-05T10:00:00Z" "2026-01-05T10:00:02Z" ConnOk
         (mkState self0 world_blocked []))
  = Exn (OSError "/tmp/meetings/current") /\
  field (env (snd (run (fun s => s) "2026-01-05T10:00:00Z"
                     "2026-01-05T10:00:02Z" ConnOk
                     (mkState self0 world_blocked []))))
        (metadata_path meeting0) "status"
  = Some (JStr "active").
Proof.
  pose proof (run_raises_when_setup_fails (fun s => s) "2026-01-05T10:00:00Z"
                "2026-01-05T10:00:02Z" ConnOk
                (mkState self0 world_blocked [])
                (OSError "/tmp/meetings/current")) as H.
  cbv zeta in H.
  refine ((fun H' => conj (f_equal fst (proj1 H'))
                          (eq_trans (f_equal (fun r => field (env (snd r))
                                       (metadata_path meeting0) "status")
                                       (proj1 H')) _)) (H _)).
  - vm_compute. reflexivity.
  - vm_compute. reflexivity.
Defined.

(** X18.  When the setup returns and the first connection attempt
    succeeds, [run] is the setup, the connect, the two loops and the
    [finally] block, one after the other, and it returns: whatever the
    loops did, the running flag is then clear, nothing was sent or slept
    after the loops, "Transcriber stopped" is the last line of the log,
    and a [current] link that can be removed is gone. *)
Theorem run_closes_after_the_loops gather started ended_at st :
  let m := ident (self st) in
  fst (MeetingTranscriber.setup_meeting_directory m started (env st)) = Val tt ->
  let w1 := snd (MeetingTranscriber.setup_meeting_directory m started (env st)) in
  let looped := gather (snd (connect ConnOk (set_env w1 st))) in
  let r := run gather started ended_at ConnOk st in
  r = (Val tt, snd (run_finally ended_at looped)) /\
  self (snd r) = set_running false (self looped) /\
  wire (env (snd r)) = wire (env looped) /\
  waited (snd r) = waited looped /\
  (exists l, stderr (env (snd r))
             = stderr (env looped) ++ l ++ ["Transcriber stopped"]) /\
  (path_join (MEETINGS_DIR (env looped)) "current"
     ∉ unwritable (fs (env looped)) ->
   symlinks (fs (env (snd r)))
     !! path_join (MEETINGS_DIR (env looped)) "current" = None).
Proof.
  intros m Hs w1 looped r.
  destruct (run_finally_effect ended_at looped)
    as (E0 & E1 & E2 & E3 & E4 & E5 & _).
  assert (E : r = (Val tt, snd (run_finally ended_at looped))).
  { subst r. unfold run. unfold bind at 1 2. unfold attr, gets.
    cbv beta iota. rewrite world_op_run. fold m. rewrite Hs.
    cbn [fst snd]. fold w1.
    assert (C : try_except (connect ConnOk ;; fun s => (Val tt, gather s))
                  (fun e => world_op (eprint ("Error: " +:+ exn_str e)))
                  (set_env w1 st) = (Val tt, looped)) by reflexivity.
    rewrite C.
    destruct (run_finally ended_at looped) as [[[]|x] s2];
      simpl in E0; [reflexivity|discriminate E0]. }
  rewrite E. cbn [snd]. auto 10.
Qed.

Lemma run_closes_after_the_loops_witness :
  fst (run (fun s => snd (receive_transcriptions
                            [heard "hello claude" "10:00:01"; RecvSignal] s))
         "2026-01-05T10:00:00Z" "2026-01-05T10:00:02Z" ConnOk state0)
  = Val tt.
Proof.
  refine (f_equal fst (proj1 (run_closes_after_the_loops
            (fun s => snd (receive_transcriptions
                             [heard "hello claude" "10:00:01"; RecvSignal] s))
            "2026-01-05T10:00:00Z" "2026-01-05T10:00:02Z" state0 _))).
  vm_compute. reflexivity.
Defined.

